(** * passphrase2pgp: the UserID packet and the key-derivation step

    A shallow embedding of two source files of passphrase2pgp:

    - the [openpgp] file that declares [UserID] and its methods [Packet],
      [Load], [SignType], [Subpackets] and [SignData];
    - [passphrase2pgp.go]: the constants [kdfTime] and [kdfMemory], the
      function [kdf], the record [options] and the key-generation branch of
      [main].

    Conventions.  A Go [[]byte] is a [list byte]; a Go integer is a [Z] whose
    conversions ([uint32], [uint8], [byte]) are written out as the reductions
    they perform.  An operation that can panic at run time (indexing, slicing)
    returns [option], [None] being the panic.  A method with a pointer
    receiver that assigns to it returns the receiver's new state. *)

From Stdlib Require Import ZArith List Lia Bool String.
From Stdlib Require Init.Byte Strings.Byte.
From coqutil Require Import Byte.
Import ListNotations.

Local Open Scope Z_scope.

(** ** Go's built-in operations *)

Module Go.

(** A computation that may panic. *)
Definition bind {A B} (m : option A) (k : A -> option B) : option B :=
  match m with
  | Some a => k a
  | None => None
  end.

(** [uint32(x)], [uint8(x)] and the wrap-around of the 64-bit [int]. *)
Definition uint32 (x : Z) : Z := x mod 2 ^ 32.
Definition uint8 (x : Z) : Z := x mod 2 ^ 8.
Definition int (x : Z) : Z := (x + 2 ^ 63) mod 2 ^ 64 - 2 ^ 63.

(** [len(s)] as an [int]. *)
Definition len {A} (s : list A) : Z := Z.of_nat (List.length s).

(** [make([]byte, n)]: [n] zero bytes. *)
Definition make (n : Z) : list byte := repeat Byte.x00 (Z.to_nat n).

(** [s[i]] as a value: panics when [i] is out of range. *)
Definition index {A} (s : list A) (i : nat) : option A := nth_error s i.

(** [s[i] = v]: panics when [i] is out of range. *)
Definition store {A} (s : list A) (i : nat) (v : A) : option (list A) :=
  if (i <? List.length s)%nat
  then Some (firstn i s ++ v :: skipn (S i) s)
  else None.

(** [s[lo:]] and [s[:hi]]; a slice is modelled with its capacity equal to
    its length, so both panic past [len(s)]. *)
Definition slice_from {A} (s : list A) (lo : nat) : option (list A) :=
  if (lo <=? List.length s)%nat then Some (skipn lo s) else None.

Definition slice_to {A} (s : list A) (hi : nat) : option (list A) :=
  if (hi <=? List.length s)%nat then Some (firstn hi s) else None.

(** [copy(dst, src)]: the first [min(len(dst), len(src))] elements of [src]
    overwrite the start of [dst]; the value is the new content of [dst]. *)
Definition copy {A} (dst src : list A) : list A :=
  let n := Nat.min (List.length dst) (List.length src) in
  firstn n src ++ skipn n dst.

(** [copy(s[lo:], src)]: [s[lo:]] shares its array with [s], so the copy is
    seen through [s]; the value is the new content of [s]. *)
Definition copy_from {A} (s : list A) (lo : nat) (src : list A)
  : option (list A) :=
  bind (slice_from s lo) (fun tail => Some (firstn lo s ++ copy tail src)).

(** [append(s, t...)]. *)
Definition append {A} (s t : list A) : list A := s ++ t.

End Go.

Declare Scope go_scope.
Delimit Scope go_scope with go.
Notation "x <- m ;; k" := (Go.bind m (fun x => k))
  (at level 61, m at next level, right associativity) : go_scope.
Local Open Scope go_scope.

(** ** Package [openpgp] *)

Module openpgp.

(** Go's [error] values that this file can return: [errors.New(msg)], and
    the failure of the packet reader. *)
Inductive error : Type :=
| errors_New (msg : string)
| FramingError.

(** A function result [(value, err)]. *)
Inductive result (A : Type) : Type :=
| Ok (a : A)
| Err (e : error).
Arguments Ok {A} a.
Arguments Err {A} e.

(** An [io.Reader] over a finite input: the bytes not yet read. *)
Definition Reader : Type := list byte.

(** [Subpacket] is declared in a file of the package that is not part of
    this development; the composite literals of [Subpackets] give its two
    fields. *)
Record Subpacket : Type := { Type' : Z; Data : list byte }.

(** Modelled from the spec: [readPacket], the packet framer's decoder, whose
    source is not part of this development.  The spec (section 4.1, and
    the Packet entry of section 3): a packet is a header byte [0xC0 | tag],
    one length byte and a body of exactly that many bytes; decoding fails
    with a framing error when the stream is shorter than the declared
    length or when the header byte's high bits do not match [0xC0].
    [UserID.Load] reads the header at [packet[0]] and the body at
    [packet[2:]], so the decoder hands back the whole packet, header and
    length byte included, and leaves the reader after the body. *)
Definition readPacket (r : Reader) : result (list byte * Reader) :=
  match r with
  | head0 :: head1 :: rest =>
      let n := Z.to_nat (byte.unsigned head1) in
      if negb (Z.land (byte.unsigned head0) 0xc0 =? 0xc0) then Err FramingError
      else if (List.length rest <? n)%nat then Err FramingError
      else Ok (head0 :: head1 :: firstn n rest, skipn n rest)
  | _ => Err FramingError
  end.

(** What [UserID.Load] relies on about the packet reader it calls: a packet
    it returns is the packet at the head of the stream (a header byte, a
    length byte and a body of that length) and the reader is left after it;
    and a whole packet with the header [0xC0|13] at the head of the stream
    is returned. *)
Definition packet_reader (read : Reader -> result (list byte * Reader))
  : Prop :=
  (forall r packet r',
     read r = Ok (packet, r') ->
     exists header n body,
       r = header :: n :: body ++ r' /\
       packet = header :: n :: body /\
       List.length body = Z.to_nat (byte.unsigned n)) /\
  (forall n body rest,
     List.length body = Z.to_nat (byte.unsigned n) ->
     read (byte.of_Z (Z.lor 0xc0 13) :: n :: body ++ rest)
     = Ok (byte.of_Z (Z.lor 0xc0 13) :: n :: body, rest)).

Module UserID.

(** [type UserID struct { ID []byte; EnableMDC bool }] *)
Record t : Type := { ID : list byte; EnableMDC : bool }.

(** [func (u *UserID) Packet() []byte] *)
Definition Packet (u : t) : option (list byte) :=
  let packet := Go.make (Go.len (ID u) + 2) in
  packet <- Go.store packet 0 (byte.of_Z (Z.lor 0xc0 13)) ;;
  packet <- Go.store packet 1 (byte.of_Z (Go.len (ID u))) ;;
  packet <- Go.copy_from packet 2 (ID u) ;;
  Some packet.

Section Load.

(** The packet reader [Load] calls; [readPacket] above is the one the
    spec describes. *)
Variable read : Reader -> result (list byte * Reader).

(** [func (u *UserID) Load(r io.Reader) (err error)]: the receiver
    after the call, and the error or, when it is nil, the reader after
    the packet. *)
Definition Load (u : t) (r : Reader) : option (t * result Reader) :=
  match read r with
  | Err e => Some (u, Err e)
  | Ok (packet, r') =>
      head <- Go.index packet 0 ;;
      if negb (byte.unsigned head =? Z.lor 0xc0 13)
      then Some (u, Err (errors_New "invalid input"))
      else
        id <- Go.slice_from packet 2 ;;
        Some ({| ID := id; EnableMDC := EnableMDC u |}, Ok r')
  end.

End Load.

(** [func (u *UserID) SignType() byte] *)
Definition SignType (u : t) : byte := byte.of_Z 0x13.

(** [func (u *UserID) Subpackets() []Subpacket] *)
Definition Subpackets (u : t) : option (list Subpacket) :=
  let subpackets :=
    [ {| Type' := 27; Data := [byte.of_Z 0x03] |};
      {| Type' := 30; Data := [byte.of_Z 0x01] |} ] in
  if EnableMDC u
  then Go.slice_from subpackets 0
  else Go.slice_to subpackets 1.

(** [func (u *UserID) SignData() []byte] *)
Definition SignData (u : t) : option (list byte) :=
  let prefix := [byte.of_Z 0xb4; byte.of_Z 0; byte.of_Z 0; byte.of_Z 0] in
  whole <- Packet u ;;
  packet <- Go.slice_from whole 1 ;;
  Some (Go.append prefix packet).

End UserID.

End openpgp.

(** ** Package [main]: [passphrase2pgp.go] *)

Module passphrase2pgp.

Import openpgp.

Definition kdfTime : Z := 8.
Definition kdfMemory : Z := 1024 * 1024.

(** The arguments [kdf] hands to [argon2.IDKey] after the passphrase and
    the salt: the local variables [time], [memory] and [threads], and the
    key length. *)
Record Argon2Params : Type :=
  { time : Z; memory : Z; threads : Z; keyLen : Z }.

(** The first three statements of [kdf]: the products are computed in
    [int] and converted to [uint32]. *)
Definition kdf_params (scale : Z) : Argon2Params :=
  {| time := Go.uint32 (Go.int (kdfTime * scale));
     memory := Go.uint32 (Go.int (kdfMemory * scale));
     threads := Go.uint8 1;
     keyLen := 64 |}.

(** [type options struct] *)
Record options : Type :=
  { sign : bool;
    keygen : bool;
    armor : bool;
    created : Z;
    fingerprint : bool;
    help : bool;
    input : string;
    load : string;
    now : bool;
    paranoid : bool;
    public : bool;
    repeat : Z;
    subkey : bool;
    uid : string }.

(** The two key types are declared in files that are not part of this
    development; [main] uses their methods [Seed] and [SetCreated], both
    on a pointer receiver. *)
Class Key (K : Type) : Type :=
  { Seed : K -> list byte -> K;
    SetCreated : K -> Z -> K }.

(** The local variables [key], [subkey] and [userid] of [main]. *)
Record locals (SignKey EncryptKey : Type) : Type :=
  { key : SignKey; subkey_ : EncryptKey; userid : UserID.t }.
Arguments key {SignKey EncryptKey} _.
Arguments subkey_ {SignKey EncryptKey} _.
Arguments userid {SignKey EncryptKey} _.

Section WithArgon2.

(** [argon2.IDKey(password, salt, time, memory, threads, keyLen)] of
    [golang.org/x/crypto/argon2]; [None] is its panic. *)
Variable IDKey :
  list byte -> list byte -> Z -> Z -> Z -> Z -> option (list byte).

(** [func kdf(passphrase, uid []byte, scale int) []byte] *)
Definition kdf (passphrase uid : list byte) (scale : Z)
  : option (list byte) :=
  let p := kdf_params scale in
  IDKey passphrase uid (time p) (memory p) (threads p) (keyLen p).

Context {SignKey EncryptKey : Type}.
Context {SignKey_methods : Key SignKey}.
Context {EncryptKey_methods : Key EncryptKey}.

(** The branch of [main] taken when [options.load] is empty, from
    [// Run KDF on passphrase] to its end, [passphrase] being the
    passphrase that was read. *)
Definition main_keygen (o : options) (passphrase : list byte)
    (l : locals SignKey EncryptKey)
  : option (locals SignKey EncryptKey) :=
  let scale := if paranoid o then 2 else 1 in
  seed <- kdf passphrase (list_byte_of_string (uid o)) scale ;;
  lo <- Go.slice_to seed 32 ;;
  let key := SetCreated (Seed (key l) lo) (created o) in
  let userid :=
    {| UserID.ID := list_byte_of_string (uid o);
       UserID.EnableMDC := false |} in
  if subkey o then
    hi <- Go.slice_from seed 32 ;;
    let subkey := SetCreated (Seed (subkey_ l) hi) (created o) in
    Some {| key := key; subkey_ := subkey; userid := userid |}
  else
    Some {| key := key; subkey_ := subkey_ l; userid := userid |}.

End WithArgon2.

(** What this development relies on about [argon2.IDKey]: called with
    [time] and [threads] of at least 1 (below that it panics), it returns a
    key of [keyLen] bytes. *)
Definition Argon2_interface
    (IDKey : list byte -> list byte -> Z -> Z -> Z -> Z -> option (list byte))
  : Prop :=
  forall password salt time memory threads keyLen,
    1 <= time -> 1 <= threads ->
    exists k,
      IDKey password salt time memory threads keyLen = Some k /\
      List.length k = Z.to_nat keyLen.

End passphrase2pgp.

(** ** Reference encoding and sample values *)

(** The four bytes of [n] in big-endian order, as
    [binary.BigEndian.PutUint32] writes them. *)
Definition big_endian32 (n : Z) : list byte :=
  [ byte.of_Z (Z.shiftr n 24); byte.of_Z (Z.shiftr n 16);
    byte.of_Z (Z.shiftr n 8); byte.of_Z n ].

(** The value that four big-endian bytes stand for. *)
Definition big_endian_value (bs : list byte) : Z :=
  fold_left (fun acc b => acc * 256 + byte.unsigned b) bs 0.

Module Sample.

Import openpgp.

(** [var userid UserID]: Go's zero value. *)
Definition zero : UserID.t :=
  {| UserID.ID := []; UserID.EnableMDC := false |}.

Definition id256 : UserID.t :=
  {| UserID.ID := List.repeat Byte.x41 256; UserID.EnableMDC := false |}.

Definition alice : UserID.t :=
  {| UserID.ID := list_byte_of_string "Alice <alice@example.org>";
     UserID.EnableMDC := true |}.

(** A receiver that holds an earlier identity. *)
Definition earlier : UserID.t :=
  {| UserID.ID := list_byte_of_string "Alice"; UserID.EnableMDC := true |}.

(** A function with the interface of [argon2.IDKey], to instantiate what
    is stated for every such function.  It is not Argon2id: below one
    round or one thread it panics, and otherwise its key counts up from
    the lengths of the password and of the salt. *)
Definition IDKey (password salt : list byte)
    (time memory threads keyLen : Z) : option (list byte) :=
  if (time <? 1) || (threads <? 1) then None
  else Some (map (fun i => byte.of_Z (Z.of_nat i + Go.len password + Go.len salt))
               (seq 0 (Z.to_nat keyLen))).

(** A key type that records the arguments of [Seed] and [SetCreated]. *)
Record RecordedKey : Type :=
  { seeded_with : list byte; created_at : Z }.

#[global] Instance RecordedKey_methods : passphrase2pgp.Key RecordedKey :=
  {| passphrase2pgp.Seed := fun k seed =>
       {| seeded_with := seed; created_at := created_at k |};
     passphrase2pgp.SetCreated := fun k t =>
       {| seeded_with := seeded_with k; created_at := t |} |}.

Definition no_key : RecordedKey := {| seeded_with := []; created_at := 0 |}.

(** [passphrase2pgp -u "Alice <alice@example.org>" -s] *)
Definition opts : passphrase2pgp.options :=
  {| passphrase2pgp.sign := false;
     passphrase2pgp.keygen := true;
     passphrase2pgp.armor := false;
     passphrase2pgp.created := 0;
     passphrase2pgp.fingerprint := false;
     passphrase2pgp.help := false;
     passphrase2pgp.input := "";
     passphrase2pgp.load := "";
     passphrase2pgp.now := false;
     passphrase2pgp.paranoid := false;
     passphrase2pgp.public := false;
     passphrase2pgp.repeat := 1;
     passphrase2pgp.subkey := true;
     passphrase2pgp.uid := "Alice <alice@example.org>" |}.

Definition passphrase : list byte :=
  list_byte_of_string "correct horse battery staple".

End Sample.

(** ** The process: [fatal], [readPassphrase], [firstLine], [parse], [main] *)

Module cmd.

Import passphrase2pgp.

(** The [error] values [main] handles: [io.EOF], an [errors.New(msg)] of
    this file, an error of a library ([os], [terminal], [bufio]) or of a key
    method, and an error of [UserID.Load]. *)
Inductive error : Type :=
| io_EOF
| errors_New (msg : string)
| library_error (msg : string)
| openpgp_error (e : openpgp.error).

(** [err == io.EOF] *)
Definition is_EOF (e : error) : bool :=
  match e with
  | io_EOF => true
  | _ => false
  end.

(** A function result [(value, err)]: [Val] when [err] is nil. *)
Inductive returned (A : Type) : Type :=
| Val (a : A)
| Fail (e : error).
Arguments Val {A} a.
Arguments Fail {A} e.

(** What the process reads and writes.  [terminal] holds what the successive
    calls of [terminal.ReadPassword] return, [files] what [os.Open] returns
    with the content of the file, and [stdout_limit], when set, the number of
    bytes after which a write to standard output fails, with its error.
    [stdin] is what [key.Sign(os.Stdin)] reads.  [terminal.ReadPassword] is
    called on [syscall.Stdin], the descriptor of [os.Stdin], so in a run both
    fields are fed from descriptor 0; the record does not relate them, and no
    property below tells what a passphrase prompt leaves of [stdin]. *)
Record World : Type :=
  { environ : string -> string;
    unix_time : Z;
    terminal : list (returned (list byte));
    files : string -> returned (list byte);
    stdin : list byte;
    stdout_limit : option (nat * error);
    stdout : list byte;
    stderr : list byte }.

Definition with_terminal (w : World) (t : list (returned (list byte))) : World :=
  {| environ := environ w; unix_time := unix_time w; terminal := t;
     files := files w; stdin := stdin w; stdout_limit := stdout_limit w;
     stdout := stdout w; stderr := stderr w |}.

Definition with_stdout (w : World) (out : list byte) : World :=
  {| environ := environ w; unix_time := unix_time w; terminal := terminal w;
     files := files w; stdin := stdin w; stdout_limit := stdout_limit w;
     stdout := out; stderr := stderr w |}.

Definition with_stderr (w : World) (err : list byte) : World :=
  {| environ := environ w; unix_time := unix_time w; terminal := terminal w;
     files := files w; stdin := stdin w; stdout_limit := stdout_limit w;
     stdout := stdout w; stderr := err |}.

(** How a call ends: it returns, the process exits ([os.Exit]), or it
    panics. *)
Inductive outcome (A : Type) : Type :=
| Return (a : A)
| Exit (status : Z)
| Panic.
Arguments Return {A} a.
Arguments Exit {A} status.
Arguments Panic {A}.

(** A function of the program: from the world before the call to the world
    after it and the way the call ended. *)
Definition prog (A : Type) : Type := World -> World * outcome A.

Definition ret {A} (a : A) : prog A := fun w => (w, Return a).

Definition bind {A B} (m : prog A) (k : A -> prog B) : prog B :=
  fun w =>
    match m w with
    | (w', Return a) => k a w'
    | (w', Exit status) => (w', Exit status)
    | (w', Panic) => (w', Panic)
    end.

(** A computation of package [openpgp] or a slice expression, inside the
    program. *)
Definition lift {A} (m : option A) : prog A :=
  fun w =>
    match m with
    | Some a => (w, Return a)
    | None => (w, Panic)
    end.

Declare Scope prog_scope.
Delimit Scope prog_scope with prog.
Notation "x <- m ;; k" := (bind m (fun x => k))
  (at level 61, m at next level, right associativity) : prog_scope.
Notation "m ;;; k" := (bind m (fun _ => k))
  (at level 61, right associativity) : prog_scope.
Local Open Scope prog_scope.

(** [os.Exit(status)] *)
Definition os_Exit {A} (status : Z) : prog A := fun w => (w, Exit status).

(** [os.Stderr.Write(b)], the result of which the program never looks at. *)
Definition Stderr_Write (b : list byte) : prog unit :=
  fun w => (with_stderr w (stderr w ++ b), Return tt).

(** [os.Stdout.Write(b)]: the error, if any. *)
Definition Stdout_Write (b : list byte) : prog (option error) :=
  fun w =>
    match stdout_limit w with
    | None => (with_stdout w (stdout w ++ b), Return None)
    | Some (n, e) => (with_stdout w (stdout w ++ firstn n b), Return (Some e))
    end.

(** [terminal.ReadPassword(int(syscall.Stdin))]: at the end of the input it
    returns [io.EOF]. *)
Definition ReadPassword : prog (returned (list byte)) :=
  fun w =>
    match terminal w with
    | [] => (w, Return (Fail io_EOF))
    | answer :: rest => (with_terminal w rest, Return answer)
    end.

(** [os.Getenv(key)], [time.Now().Unix()], [os.Open(name)] and the content
    of [os.Stdin]. *)
Definition Getenv (key : string) : prog string :=
  fun w => (w, Return (environ w key)).

Definition Now_Unix : prog Z := fun w => (w, Return (unix_time w)).

Definition Open (name : string) : prog (returned openpgp.Reader) :=
  fun w => (w, Return (files w name)).

Definition Stdin : prog (list byte) := fun w => (w, Return (stdin w)).

(** [func fatal(format string, args ...interface{})], [message] being what
    [fmt.Fprintf] makes of [format] and [args]. *)
Definition fatal {A} (message : string) : prog A :=
  let buf := list_byte_of_string "passphrase2pgp: " in
  let buf := buf ++ list_byte_of_string message in
  let buf := buf ++ [Byte.x0a] in
  Stderr_Write buf ;;; os_Exit 1.

(** The loop of [readPassphrase], with [n] rounds left. *)
Fixpoint readPassphrase_loop (n : nat) (passphrase tail : list byte)
  : prog (returned (list byte)) :=
  match n with
  | O => ret (Val passphrase)
  | S n' =>
      Stderr_Write (list_byte_of_string "passphrase (repeat): ") ;;;
      again <- ReadPassword ;;
      match again with
      | Fail err => ret (Fail err)
      | Val again =>
          Stderr_Write tail ;;;
          if negb (if list_eq_dec Byte.byte_eq_dec again passphrase
                   then true else false)
          then ret (Fail (errors_New "passphrases do not match"))
          else readPassphrase_loop n' passphrase tail
      end
  end.

(** [func readPassphrase(repeat int) ([]byte, error)] *)
Definition readPassphrase (repeat : Z) : prog (returned (list byte)) :=
  let tail := [Byte.x0a] in
  Stderr_Write (list_byte_of_string "passphrase: ") ;;;
  passphrase <- ReadPassword ;;
  match passphrase with
  | Fail err => ret (Fail err)
  | Val passphrase =>
      Stderr_Write tail ;;;
      readPassphrase_loop (Z.to_nat repeat) passphrase tail
  end.

(** A [bufio.Scanner] after its first [s.Scan()]: what [Scan] returned, and
    what [s.Err()] and [s.Bytes()] return. *)
Record Scanner : Type :=
  { Scan : bool; Err : option error; Bytes : list byte }.

Definition with_uid (o : options) (u : string) : options :=
  {| sign := sign o; keygen := keygen o; armor := armor o;
     created := created o; fingerprint := fingerprint o; help := help o;
     input := input o; load := load o; now := now o; paranoid := paranoid o;
     public := public o; repeat := repeat o; subkey := subkey o; uid := u |}.

Definition with_created (o : options) (t : Z) : options :=
  {| sign := sign o; keygen := keygen o; armor := armor o;
     created := t; fingerprint := fingerprint o; help := help o;
     input := input o; load := load o; now := now o; paranoid := paranoid o;
     public := public o; repeat := repeat o; subkey := subkey o; uid := uid o |}.

(** [Bindable]: the interface that [*UserID] and [*EncryptKey] implement, as
    the two values [main] passes to [Bind]. *)
Inductive Bindable (EncryptKey : Type) : Type :=
| Bindable_UserID (u : openpgp.UserID.t)
| Bindable_EncryptKey (e : EncryptKey).
Arguments Bindable_UserID {EncryptKey} u.
Arguments Bindable_EncryptKey {EncryptKey} e.

(** The methods of the two key types that [main] calls besides [Seed] and
    [SetCreated], and their zero values; the types are declared in files
    that are not part of this development.  [SignKey_Sign] is given the
    content of the reader, and [SignKey_KeyID_X] is [key.KeyID()] as the
    verb [%X] prints it. *)
Class SignKeyMethods (SignKey EncryptKey : Type) : Type :=
  { SignKey_zero : SignKey;
    SignKey_Load :
      SignKey -> openpgp.Reader -> SignKey * returned openpgp.Reader;
    SignKey_Created : SignKey -> Z;
    SignKey_KeyID_X : SignKey -> list byte;
    SignKey_Sign : SignKey -> list byte -> returned (list byte);
    SignKey_PubPacket : SignKey -> list byte;
    SignKey_Packet : SignKey -> list byte;
    SignKey_Bind : SignKey -> Bindable EncryptKey -> Z -> list byte }.

Class EncryptKeyMethods (EncryptKey : Type) : Type :=
  { EncryptKey_zero : EncryptKey;
    EncryptKey_PubPacket : EncryptKey -> list byte;
    EncryptKey_Packet : EncryptKey -> list byte }.

Section Program.

(** What [flag.Usage()] prints. *)
Variable usage : list byte.

(** [err.Error()], which the verb [%s] prints. *)
Variable Error : error -> string.

(** [bufio.NewScanner(f)] followed by [s.Scan()]. *)
Variable bufio_Scan : openpgp.Reader -> Scanner.

(** [argon2.IDKey], the packet reader of [UserID.Load], and [Armor]. *)
Variable IDKey :
  list byte -> list byte -> Z -> Z -> Z -> Z -> option (list byte).
Variable read :
  openpgp.Reader -> openpgp.result (list byte * openpgp.Reader).
Variable Armor : list byte -> list byte.

Context {SignKey EncryptKey : Type}.
Context {SignKey_seed : Key SignKey} {EncryptKey_seed : Key EncryptKey}.
Context {SignKey_methods : SignKeyMethods SignKey EncryptKey}.
Context {EncryptKey_methods : EncryptKeyMethods EncryptKey}.

(** [func firstLine(filename string) ([]byte, error)] *)
Definition firstLine (filename : string) : prog (returned (list byte)) :=
  f <- Open filename ;;
  match f with
  | Fail err => ret (Fail err)
  | Val f =>
      let s := bufio_Scan f in
      if negb (Scan s) then
        match Err s with
        | Some err =>
            if negb (is_EOF err) then ret (Fail err) else ret (Val [])
        | None => ret (Val [])
        end
      else ret (Val (Bytes s))
  end.

(** [func parse() *options], from the statement after [flag.Parse()]: [o]
    holds the flags as [flag.Parse] left them. *)
Definition parse (o : options) : prog options :=
  (if help o then Stdout_Write usage ;;; os_Exit 0 else ret tt) ;;;
  o <- (if (uid o =? "")%string && (load o =? "")%string then
          email <- Getenv "EMAIL" ;;
          o <- (if negb (email =? "")%string then
                  realname <- Getenv "REALNAME" ;;
                  if negb (realname =? "")%string
                  then ret (with_uid o (realname ++ " <" ++ email ++ ">")%string)
                  else ret o
                else ret o) ;;
          if (uid o =? "")%string
          then fatal "must have either -u or -l option"
          else ret o
        else ret o) ;;
  if now o then t <- Now_Unix ;; ret (with_created o t) else ret o.

(** The branch of [main] taken when [options.load] is empty, up to the call
    of [kdf]: the passphrase, from the file [-i] or from the terminal. *)
Definition main_passphrase (o : options) : prog (list byte) :=
  r <- (if negb (input o =? "")%string
        then firstLine (input o)
        else readPassphrase (repeat o)) ;;
  match r with
  | Fail err => fatal (Error err)
  | Val passphrase => ret passphrase
  end.

(** The branch of [main] taken when [options.load] is not empty. *)
Definition main_load (o : options) (l : locals SignKey EncryptKey)
  : prog (options * locals SignKey EncryptKey) :=
  f <- Open (load o) ;;
  match f with
  | Fail err => fatal (Error err)
  | Val f =>
      let (key', r) := SignKey_Load (key l) f in
      match r with
      | Fail err => fatal (Error err)
      | Val f =>
          loaded <- lift (openpgp.UserID.Load read (userid l) f) ;;
          match loaded with
          | (_, openpgp.Err err) => fatal (Error (openpgp_error err))
          | (userid', openpgp.Ok _) =>
              ret (with_created o (SignKey_Created key'),
                   {| key := key'; subkey_ := subkey_ l; userid := userid' |})
          end
      end
  end.

(** The part of [main] that fills [output], before the armor. *)
Definition main_output (o : options) (l : locals SignKey EncryptKey)
  : prog (list byte) :=
  if sign o then
    input <- Stdin ;;
    match SignKey_Sign (key l) input with
    | Fail err => fatal (Error err)
    | Val output => ret output
    end
  else
    id_packet <- lift (openpgp.UserID.Packet (userid l)) ;;
    let id_binding :=
      SignKey_Bind (key l) (Bindable_UserID (userid l)) (created o) in
    let subkey_binding :=
      SignKey_Bind (key l) (Bindable_EncryptKey (subkey_ l)) (created o) in
    if public o then
      ret (SignKey_PubPacket (key l) ++ id_packet ++ id_binding
             ++ (if subkey o
                 then EncryptKey_PubPacket (subkey_ l) ++ subkey_binding
                 else []))
    else
      ret (SignKey_Packet (key l) ++ id_packet ++ id_binding
             ++ (if subkey o
                 then EncryptKey_Packet (subkey_ l) ++ subkey_binding
                 else [])).

(** [func main()], [flags] being the flags as [flag.Parse] left them. *)
Definition main (flags : options) : prog unit :=
  let l :=
    {| key := SignKey_zero; subkey_ := EncryptKey_zero;
       userid := {| openpgp.UserID.ID := [];
                    openpgp.UserID.EnableMDC := false |} |} in
  o <- parse flags ;;
  ol <- (if (load o =? "")%string then
           passphrase <- main_passphrase o ;;
           l <- lift (main_keygen IDKey o passphrase l) ;;
           ret (o, l)
         else main_load o l) ;;
  let (o, l) := ol in
  (if fingerprint o
   then Stderr_Write (SignKey_KeyID_X (key l) ++ [Byte.x0a])
   else ret tt) ;;;
  output <- main_output o l ;;
  let output := if armor o then Armor output else output in
  err <- Stdout_Write output ;;
  match err with
  | Some err => fatal (Error err)
  | None => ret tt
  end.

End Program.

End cmd.

(** ** Sample values for the process *)

Module Fixture.

Import cmd.

(** A world with the given answers at the terminal and the given variables
    in the environment; no file can be opened, and nothing has been read or
    written. *)
Definition world (answers : list (returned (list byte)))
    (env : string -> string) : World :=
  {| environ := env;
     unix_time := 1700000000;
     terminal := answers;
     files := fun _ => Fail (library_error "no such file or directory");
     stdin := [];
     stdout_limit := None;
     stdout := [];
     stderr := [] |}.

Definition no_env : string -> string := fun _ => EmptyString.

Definition hunter2 : list byte := list_byte_of_string "hunter2".

(** [REALNAME=Alice EMAIL=alice@example.org] *)
Definition env_alice : string -> string :=
  fun key =>
    if (key =? "REALNAME")%string then "Alice"%string
    else if (key =? "EMAIL")%string then "alice@example.org"%string
    else EmptyString.

(** The flags when the command line gives none, and with [-n -t 5]. *)
Definition no_flags : passphrase2pgp.options :=
  {| passphrase2pgp.sign := false;
     passphrase2pgp.keygen := true;
     passphrase2pgp.armor := false;
     passphrase2pgp.created := 0;
     passphrase2pgp.fingerprint := false;
     passphrase2pgp.help := false;
     passphrase2pgp.input := "";
     passphrase2pgp.load := "";
     passphrase2pgp.now := false;
     passphrase2pgp.paranoid := false;
     passphrase2pgp.public := false;
     passphrase2pgp.repeat := 1;
     passphrase2pgp.subkey := false;
     passphrase2pgp.uid := "" |}.

(** Stand-ins for the parts of the program that are not in this
    development, to instantiate what is stated for every such part: the text
    of an error, a scanner that gives the bytes before the first newline, an
    armor that puts a line before the bytes, and keys that record their seed
    and write it as the body of their secret packet. *)
Definition Error (e : error) : string :=
  match e with
  | io_EOF => "EOF"
  | errors_New msg => msg
  | library_error msg => msg
  | openpgp_error (openpgp.errors_New msg) => msg
  | openpgp_error openpgp.FramingError => "short packet"
  end.

Fixpoint before_newline (content : list byte) : list byte :=
  match content with
  | [] => []
  | b :: rest =>
      if Byte.eqb b Byte.x0a then [] else b :: before_newline rest
  end.

Definition bufio_Scan (content : openpgp.Reader) : Scanner :=
  {| Scan := match content with [] => false | _ => true end;
     Err := None;
     Bytes := before_newline content |}.

Definition Armor (output : list byte) : list byte :=
  list_byte_of_string "-----BEGIN PGP-----" ++ Byte.x0a :: output.

Definition RecordedKey_Load (k : Sample.RecordedKey) (r : openpgp.Reader)
  : Sample.RecordedKey * returned openpgp.Reader :=
  match openpgp.readPacket r with
  | openpgp.Ok (header :: _ :: body, r') =>
      if byte.unsigned header =? Z.lor 0xc0 5
      then ({| Sample.seeded_with := body;
               Sample.created_at := Sample.created_at k |}, Val r')
      else (k, Fail (errors_New "invalid input"))
  | openpgp.Ok (_, _) => (k, Fail (errors_New "invalid input"))
  | openpgp.Err e => (k, Fail (openpgp_error e))
  end.

Definition RecordedKey_Packet (tag : Z) (k : Sample.RecordedKey) : list byte :=
  byte.of_Z (Z.lor 0xc0 tag)
    :: byte.of_Z (Go.len (Sample.seeded_with k)) :: Sample.seeded_with k.

#[global] Instance RecordedKey_sign
  : SignKeyMethods Sample.RecordedKey Sample.RecordedKey :=
  {| SignKey_zero := Sample.no_key;
     SignKey_Load := RecordedKey_Load;
     SignKey_Created := Sample.created_at;
     SignKey_KeyID_X := fun _ => list_byte_of_string "0123456789ABCDEF";
     SignKey_Sign := fun _ input => Val (byte.of_Z (Z.lor 0xc0 2) :: input);
     SignKey_PubPacket := fun _ => [byte.of_Z (Z.lor 0xc0 6); Byte.x00];
     SignKey_Packet := RecordedKey_Packet 5;
     SignKey_Bind := fun _ _ _ => [byte.of_Z (Z.lor 0xc0 2); Byte.x00] |}.

#[global] Instance RecordedKey_encrypt : EncryptKeyMethods Sample.RecordedKey :=
  {| EncryptKey_zero := Sample.no_key;
     EncryptKey_PubPacket := fun _ => [byte.of_Z (Z.lor 0xc0 14); Byte.x00];
     EncryptKey_Packet := RecordedKey_Packet 7 |}.

(** The world [w] with one more file. *)
Definition with_file (w : World) (name : string) (content : list byte)
  : World :=
  {| environ := environ w; unix_time := unix_time w; terminal := terminal w;
     files := fun n => if (n =? name)%string then Val content else files w n;
     stdin := stdin w; stdout_limit := stdout_limit w;
     stdout := stdout w; stderr := stderr w |}.

(** [-u Alice -i passphrase.txt] and [-l alice.key]. *)
Definition flags_input : passphrase2pgp.options :=
  {| passphrase2pgp.sign := false;
     passphrase2pgp.keygen := true;
     passphrase2pgp.armor := false;
     passphrase2pgp.created := 0;
     passphrase2pgp.fingerprint := false;
     passphrase2pgp.help := false;
     passphrase2pgp.input := "passphrase.txt";
     passphrase2pgp.load := "";
     passphrase2pgp.now := false;
     passphrase2pgp.paranoid := false;
     passphrase2pgp.public := false;
     passphrase2pgp.repeat := 1;
     passphrase2pgp.subkey := false;
     passphrase2pgp.uid := "Alice" |}.

Definition flags_load : passphrase2pgp.options :=
  {| passphrase2pgp.sign := false;
     passphrase2pgp.keygen := true;
     passphrase2pgp.armor := false;
     passphrase2pgp.created := 0;
     passphrase2pgp.fingerprint := false;
     passphrase2pgp.help := false;
     passphrase2pgp.input := "";
     passphrase2pgp.load := "alice.key";
     passphrase2pgp.now := false;
     passphrase2pgp.paranoid := false;
     passphrase2pgp.public := true;
     passphrase2pgp.repeat := 1;
     passphrase2pgp.subkey := false;
     passphrase2pgp.uid := "" |}.

(** The keys and the identity of a run, and those at the start of [main]. *)
Definition alice_keys : passphrase2pgp.locals Sample.RecordedKey Sample.RecordedKey :=
  {| passphrase2pgp.key :=
       {| Sample.seeded_with := hunter2; Sample.created_at := 5 |};
     passphrase2pgp.subkey_ := Sample.no_key;
     passphrase2pgp.userid := Sample.alice |}.

Definition zero_keys : passphrase2pgp.locals Sample.RecordedKey Sample.RecordedKey :=
  {| passphrase2pgp.key := Sample.no_key;
     passphrase2pgp.subkey_ := Sample.no_key;
     passphrase2pgp.userid := Sample.zero |}.

Definition flags_now : passphrase2pgp.options :=
  {| passphrase2pgp.sign := false;
     passphrase2pgp.keygen := true;
     passphrase2pgp.armor := false;
     passphrase2pgp.created := 5;
     passphrase2pgp.fingerprint := false;
     passphrase2pgp.help := false;
     passphrase2pgp.input := "";
     passphrase2pgp.load := "";
     passphrase2pgp.now := true;
     passphrase2pgp.paranoid := false;
     passphrase2pgp.public := false;
     passphrase2pgp.repeat := 1;
     passphrase2pgp.subkey := false;
     passphrase2pgp.uid := "" |}.

End Fixture.

(** ** What a function of the program leaves alone *)

Module Effect.

Import cmd.

(** [silent m]: [m] writes nothing to standard output, and when it exits
    the process the status is 1. *)
Definition silent {A} (m : prog A) : Prop :=
  forall w w' out,
    m w = (w', out) ->
    stdout w' = stdout w /\
    stdout_limit w' = stdout_limit w /\
    (forall status, out = Exit status -> status = 1).

(** [deaf m]: [m] reads nothing from the terminal. *)
Definition deaf {A} (m : prog A) : Prop :=
  forall w w' out, m w = (w', out) -> terminal w' = terminal w.

End Effect.

(** ** The command line *)

Module cmdline.

Import passphrase2pgp cmd.

(** [quiet m]: [m] writes nothing to standard output. *)
Definition quiet {A} (m : prog A) : Prop :=
  forall w w' out,
    m w = (w', out) ->
    stdout w' = stdout w /\ stdout_limit w' = stdout_limit w.

Section CommandLine.

(** The first statements of [parse]: the declarations of the flags and the
    call [flag.Parse()].  It returns the [options] it has filled from the
    command line, or ends the process itself on a command line it rejects
    (the flag set is [flag.ExitOnError]).  The package [flag] is a library:
    whatever it does. *)
Variable flag_Parse : prog options.

Variable usage : list byte.
Variable Error : error -> string.
Variable bufio_Scan : openpgp.Reader -> Scanner.
Variable IDKey :
  list byte -> list byte -> Z -> Z -> Z -> Z -> option (list byte).
Variable read :
  openpgp.Reader -> openpgp.result (list byte * openpgp.Reader).
Variable Armor : list byte -> list byte.

Context {SignKey EncryptKey : Type}.
Context {SignKey_seed : Key SignKey} {EncryptKey_seed : Key EncryptKey}.
Context {SignKey_methods : SignKeyMethods SignKey EncryptKey}.
Context {EncryptKey_methods : EncryptKeyMethods EncryptKey}.

(** [func parse() *options], whole: [flag.Parse()], then the statements
    that follow it. *)
Definition parse : prog options :=
  cmd.bind flag_Parse (cmd.parse usage).

(** [func main()], whole: its first statement is [options := parse()], of
    which [flag.Parse()] is the first effect. *)
Definition main : prog unit :=
  cmd.bind flag_Parse (cmd.main usage Error bufio_Scan IDKey read Armor).

End CommandLine.

End cmdline.

(** * Properties *)

(** ** Go's built-in operations *)

(** An index or a bound is within a list whose length is known. *)
Ltac in_range := cbn [List.length]; lia.

(** A closed comparison of lengths or bytes, by evaluation. *)
Ltac by_evaluation := vm_compute; first [reflexivity | discriminate].

Section GoFacts.

Context {A : Type}.

Lemma store_in_range (s : list A) (i : nat) (v : A) :
  (i < List.length s)%nat ->
  Go.store s i v = Some (firstn i s ++ v :: skipn (S i) s).
Proof.
  intros Hi. unfold Go.store.
  destruct (Nat.ltb_spec i (List.length s)); [reflexivity | lia].
Qed.

Lemma slice_from_in_range (s : list A) (lo : nat) :
  (lo <= List.length s)%nat -> Go.slice_from s lo = Some (skipn lo s).
Proof.
  intros Hlo. unfold Go.slice_from.
  destruct (Nat.leb_spec lo (List.length s)); [reflexivity | lia].
Qed.

Lemma slice_to_in_range (s : list A) (hi : nat) :
  (hi <= List.length s)%nat -> Go.slice_to s hi = Some (firstn hi s).
Proof.
  intros Hhi. unfold Go.slice_to.
  destruct (Nat.leb_spec hi (List.length s)); [reflexivity | lia].
Qed.

(** Copying a source into a destination of the same length replaces the
    destination. *)
Lemma copy_same_length (dst src : list A) :
  List.length dst = List.length src -> Go.copy dst src = src.
Proof.
  intros Hlen. unfold Go.copy.
  rewrite Hlen, Nat.min_id, firstn_all.
  rewrite <- Hlen, skipn_all. apply app_nil_r.
Qed.

End GoFacts.

(** The conversion to [uint32] absorbs the wrap-around of [int]. *)
Lemma uint32_int (x : Z) : Go.uint32 (Go.int x) = Go.uint32 x.
Proof.
  unfold Go.uint32, Go.int.
  pose proof (Z.div_mod (x + 2 ^ 63) (2 ^ 64) ltac:(lia)) as Hdiv.
  set (q := (x + 2 ^ 63) / 2 ^ 64) in Hdiv.
  replace ((x + 2 ^ 63) mod 2 ^ 64 - 2 ^ 63)
    with (x + (- q * 2 ^ 32) * 2 ^ 32) by lia.
  apply Z_mod_plus_full.
Qed.

Lemma uint32_small (x : Z) : 0 <= x < 2 ^ 32 -> Go.uint32 x = x.
Proof. intros Hx. apply Z.mod_small, Hx. Qed.

(** A byte is its own conversion when the value fits. *)
Lemma byte_of_Z_small (x : Z) :
  0 <= x <= 255 -> byte.unsigned (byte.of_Z x) = x.
Proof.
  intros Hx. rewrite byte.unsigned_of_Z. unfold byte.wrap.
  apply Z.mod_small. lia.
Qed.

(** ** [UserID.Packet] *)

Import openpgp.

(** The three writes of [Packet] are in range whatever the identity, and
    leave the header byte, the length byte and the identity. *)
Lemma Packet_eq (u : UserID.t) :
  UserID.Packet u =
  Some (byte.of_Z (Z.lor 0xc0 13)
          :: byte.of_Z (Go.len (UserID.ID u)) :: UserID.ID u).
Proof.
  unfold UserID.Packet, Go.make, Go.len.
  replace (Z.to_nat (Z.of_nat (List.length (UserID.ID u)) + 2))
    with (S (S (List.length (UserID.ID u)))) by lia.
  cbn [List.repeat].
  rewrite store_in_range by in_range.
  cbn [firstn skipn app Go.bind].
  rewrite store_in_range by in_range.
  cbn [firstn skipn app Go.bind].
  unfold Go.copy_from.
  rewrite slice_from_in_range by in_range.
  cbn [firstn skipn app Go.bind].
  rewrite copy_same_length by apply repeat_length.
  reflexivity.
Qed.

Lemma header_byte : byte.unsigned (byte.of_Z (Z.lor 0xc0 13)) = Z.lor 0xc0 13.
Proof. reflexivity. Qed.

(** C4: for an identity of at most 255 bytes, [Packet] returns
    [len(u.ID)+2] bytes: the header byte [0xC0|13], a second byte equal to
    [len(u.ID)], then the identity bytes unchanged. *)
Theorem Packet_layout (u : UserID.t) :
  Go.len (UserID.ID u) <= 255 ->
  exists header n,
    UserID.Packet u = Some (header :: n :: UserID.ID u) /\
    byte.unsigned header = Z.lor 0xc0 13 /\
    byte.unsigned n = Go.len (UserID.ID u) /\
    Go.len (header :: n :: UserID.ID u) = Go.len (UserID.ID u) + 2.
Proof.
  intros Hlen.
  exists (byte.of_Z (Z.lor 0xc0 13)), (byte.of_Z (Go.len (UserID.ID u))).
  split; [apply Packet_eq | split; [apply header_byte | split]].
  - apply byte_of_Z_small. unfold Go.len in *. lia.
  - unfold Go.len. cbn [List.length]. lia.
Qed.

Lemma Packet_layout_witness :
  Go.len (UserID.ID Sample.alice) <= 255 /\
  exists header n,
    UserID.Packet Sample.alice = Some (header :: n :: UserID.ID Sample.alice) /\
    byte.unsigned header = Z.lor 0xc0 13 /\
    byte.unsigned n = Go.len (UserID.ID Sample.alice) /\
    Go.len (header :: n :: UserID.ID Sample.alice)
    = Go.len (UserID.ID Sample.alice) + 2.
Proof.
  assert (Hlen : Go.len (UserID.ID Sample.alice) <= 255)
    by by_evaluation.
  split; [exact Hlen | apply (Packet_layout Sample.alice Hlen)].
Defined.

(** C3: [Packet] at an identity of 256 bytes.  It does not fail: it returns
    258 bytes, and the length byte of the packet is 0, not the length of the
    identity that follows it. *)
Theorem Packet_256_not_rejected :
  Go.len (UserID.ID Sample.id256) = 256 /\
  UserID.Packet Sample.id256
  = Some (Byte.xcd :: Byte.x00 :: UserID.ID Sample.id256).
Proof. split; vm_compute; reflexivity. Qed.

(** ** [UserID.Subpackets] *)

(** C6: [Subpackets] returns the key-flags subpacket (type 27, data [0x03]:
    the certify bit and the sign bit) first, the features subpacket (type 30,
    data [0x01]) exactly when [EnableMDC] is set, and nothing else. *)
Theorem Subpackets_contents (u : UserID.t) :
  let key_flags := {| Type' := 27; Data := [Byte.x03] |} in
  let features := {| Type' := 30; Data := [Byte.x01] |} in
  exists subpackets,
    UserID.Subpackets u = Some subpackets /\
    subpackets
    = key_flags :: (if UserID.EnableMDC u then [features] else []) /\
    hd_error subpackets = Some key_flags /\
    (In features subpackets <-> UserID.EnableMDC u = true) /\
    (forall s, In s subpackets -> s = key_flags \/ s = features) /\
    Z.testbit (byte.unsigned Byte.x03) 0 = true /\
    Z.testbit (byte.unsigned Byte.x03) 1 = true /\
    byte.unsigned Byte.x03 = Z.lor 0x01 0x02.
Proof.
  intros key_flags features.
  assert (Hne : features <> key_flags) by discriminate.
  unfold UserID.Subpackets.
  destruct (UserID.EnableMDC u).
  - exists [key_flags; features].
    split; [reflexivity | split; [reflexivity | split; [reflexivity |]]].
    split; [| split; [| repeat split]].
    + split; [reflexivity | intros _; right; left; reflexivity].
    + intros s [<- | [<- | []]]; [left | right]; reflexivity.
  - exists [key_flags].
    split; [reflexivity | split; [reflexivity | split; [reflexivity |]]].
    split; [| split; [| repeat split]].
    + split; [| discriminate].
      intros [H | []]. symmetry in H. contradiction.
    + intros s [<- | []]. left. reflexivity.
Qed.

(** ** [UserID.SignData] *)

(** The four bytes of [big_endian32 n] stand for [n]. *)
Lemma big_endian32_value (n : Z) :
  0 <= n < 2 ^ 32 -> big_endian_value (big_endian32 n) = n.
Proof.
  intros Hn. unfold big_endian_value, big_endian32. cbn [fold_left].
  rewrite !byte.unsigned_of_Z. unfold byte.wrap.
  rewrite !Z.shiftr_div_pow2 by lia.
  change (2 ^ 8) with 256. change (2 ^ 24) with (256 * 256 * 256).
  change (2 ^ 16) with (256 * 256). change (2 ^ 32) with (256 * 256 * 256 * 256) in Hn.
  pose proof (Z.div_mod n 256 ltac:(lia)).
  pose proof (Z.mod_pos_bound n 256 ltac:(lia)).
  pose proof (Z.div_mod (n / 256) 256 ltac:(lia)).
  pose proof (Z.mod_pos_bound (n / 256) 256 ltac:(lia)).
  pose proof (Z.div_mod (n / 256 / 256) 256 ltac:(lia)).
  pose proof (Z.mod_pos_bound (n / 256 / 256) 256 ltac:(lia)).
  rewrite <- !Z.div_div by lia.
  assert (0 <= n / 256 / 256 / 256 < 256).
  { split.
    - repeat apply Z.div_pos; lia.
    - repeat (apply Z.div_lt_upper_bound; [lia |]). lia. }
  rewrite (Z.mod_small (n / 256 / 256 / 256)) by lia.
  lia.
Qed.

(** A length of at most 255 has three zero bytes before its low byte. *)
Lemma big_endian32_small (n : Z) :
  0 <= n <= 255 ->
  big_endian32 n = [Byte.x00; Byte.x00; Byte.x00; byte.of_Z n].
Proof.
  intros Hn. unfold big_endian32.
  rewrite !Z.shiftr_div_pow2 by lia.
  rewrite !Z.div_small by lia.
  reflexivity.
Qed.

(** C7: for an identity of at most 255 bytes, [SignData] returns the tag
    byte [0xb4], the 4-byte big-endian length of the identity and the
    identity bytes, [len(u.ID)+5] bytes in all. *)
Theorem SignData_layout (u : UserID.t) :
  Go.len (UserID.ID u) <= 255 ->
  exists data,
    UserID.SignData u = Some data /\
    data = Byte.xb4 :: big_endian32 (Go.len (UserID.ID u)) ++ UserID.ID u /\
    Go.len data = Go.len (UserID.ID u) + 5.
Proof.
  intros Hlen. unfold UserID.SignData.
  rewrite Packet_eq. cbn [Go.bind].
  rewrite slice_from_in_range by in_range.
  cbn [skipn Go.bind]. eexists. split; [reflexivity |].
  rewrite big_endian32_small by (unfold Go.len in *; lia).
  split; [reflexivity |].
  unfold Go.append, Go.len. cbn [List.length app]. lia.
Qed.

Lemma SignData_layout_witness :
  Go.len (UserID.ID Sample.alice) <= 255 /\
  exists data,
    UserID.SignData Sample.alice = Some data /\
    data = Byte.xb4 :: big_endian32 (Go.len (UserID.ID Sample.alice))
                    ++ UserID.ID Sample.alice /\
    Go.len data = Go.len (UserID.ID Sample.alice) + 5.
Proof.
  assert (Hlen : Go.len (UserID.ID Sample.alice) <= 255)
    by by_evaluation.
  split; [exact Hlen | apply (SignData_layout Sample.alice Hlen)].
Defined.

(** ** [UserID.Load] *)

(** [Load], whatever the packet reader, returns the receiver as it was with
    an error, or the receiver with a new [ID] and no error. *)
Lemma Load_cases read (u : UserID.t) (r : Reader) u' res :
  UserID.Load read u r = Some (u', res) ->
  (u' = u /\ exists e, res = Err e) \/
  (exists packet r',
     read r = Ok (packet, r') /\
     (exists head, Go.index packet 0 = Some head /\
                   byte.unsigned head = Z.lor 0xc0 13) /\
     Go.slice_from packet 2 = Some (UserID.ID u') /\
     UserID.EnableMDC u' = UserID.EnableMDC u /\
     res = Ok r').
Proof.
  unfold UserID.Load.
  destruct (read r) as [[packet r'] | e].
  - destruct (Go.index packet 0) as [head |] eqn:Hhead; cbn [Go.bind];
      [| discriminate].
    destruct (Z.eqb_spec (byte.unsigned head) (Z.lor 0xc0 13)) as [Htag | Htag];
      cbn [negb].
    + destruct (Go.slice_from packet 2) as [id |] eqn:Hid; cbn [Go.bind];
        [| discriminate].
      intros [= <- <-]. right. exists packet, r'. eauto 10.
    + intros [= <- <-]. left. eauto.
  - intros [= <- <-]. left. eauto.
Qed.

(** C10: [Load] assigns only the [ID] field: whatever the packet reader
    does and whether [Load] returns an error or not, [EnableMDC] is after
    the call what it was before. *)
Theorem Load_preserves_EnableMDC read (u : UserID.t) (r : Reader) u' res :
  UserID.Load read u r = Some (u', res) ->
  UserID.EnableMDC u' = UserID.EnableMDC u.
Proof.
  intros Hload.
  destruct (Load_cases _ _ _ _ _ Hload)
    as [[-> _] | (packet & r' & _ & _ & _ & Hmdc & _)];
    [reflexivity | exact Hmdc].
Qed.

(** The reader of the spec gives back a well-formed packet whose header
    carries the high bits [0xC0]. *)
Lemma readPacket_packet (header n : byte) (body rest : list byte) :
  Z.land (byte.unsigned header) 0xc0 = 0xc0 ->
  List.length body = Z.to_nat (byte.unsigned n) ->
  readPacket (header :: n :: body ++ rest)
  = Ok (header :: n :: body, rest).
Proof.
  intros Hhigh Hlen. unfold readPacket.
  rewrite Hhigh, Z.eqb_refl. cbn [negb].
  rewrite <- Hlen, length_app.
  destruct (Nat.ltb_spec (List.length body + List.length rest)
              (List.length body)); [lia |].
  rewrite firstn_app, Nat.sub_diag, firstn_all, firstn_O, app_nil_r.
  rewrite skipn_app, Nat.sub_diag, skipn_all. reflexivity.
Qed.

(** What the reader of the spec accepts is a well-formed packet at the start
    of the stream. *)
Lemma readPacket_Ok (r : Reader) packet r' :
  readPacket r = Ok (packet, r') ->
  exists header n body,
    r = header :: n :: body ++ r' /\
    packet = header :: n :: body /\
    List.length body = Z.to_nat (byte.unsigned n).
Proof.
  unfold readPacket.
  destruct r as [| header [| n rest]]; try discriminate.
  destruct (negb _); [discriminate |].
  destruct (Nat.ltb_spec (List.length rest) (Z.to_nat (byte.unsigned n)));
    [discriminate |].
  intros [= <- <-].
  exists header, n, (firstn (Z.to_nat (byte.unsigned n)) rest).
  rewrite firstn_skipn, length_firstn. repeat split. lia.
Qed.

Lemma Load_preserves_EnableMDC_witness :
  (UserID.Load readPacket Sample.alice
     (Byte.xcd :: Byte.x03 :: list_byte_of_string "Bob")
   = Some ({| UserID.ID := list_byte_of_string "Bob";
              UserID.EnableMDC := true |}, Ok []) /\
   UserID.EnableMDC
     {| UserID.ID := list_byte_of_string "Bob"; UserID.EnableMDC := true |}
   = UserID.EnableMDC Sample.alice) /\
  (UserID.Load readPacket Sample.alice [Byte.xc2; Byte.x00]
   = Some (Sample.alice, Err (errors_New "invalid input")) /\
   UserID.EnableMDC Sample.alice = UserID.EnableMDC Sample.alice).
Proof.
  assert (Hok :
    UserID.Load readPacket Sample.alice
      (Byte.xcd :: Byte.x03 :: list_byte_of_string "Bob")
    = Some ({| UserID.ID := list_byte_of_string "Bob";
               UserID.EnableMDC := true |}, Ok []))
    by by_evaluation.
  assert (Herr :
    UserID.Load readPacket Sample.alice [Byte.xc2; Byte.x00]
    = Some (Sample.alice, Err (errors_New "invalid input")))
    by by_evaluation.
  split; (split; [eassumption |]).
  - exact (Load_preserves_EnableMDC _ _ _ _ _ Hok).
  - exact (Load_preserves_EnableMDC _ _ _ _ _ Herr).
Defined.

(** The reader of the spec is such a packet reader. *)
Lemma readPacket_packet_reader : packet_reader readPacket.
Proof.
  split.
  - apply readPacket_Ok.
  - intros n body rest Hlen. apply readPacket_packet; [reflexivity | exact Hlen].
Qed.

(** C5, as stated, fails twice.  A 256-byte identity is encoded with the
    length byte 0, so that [Load] reads back the empty identity and leaves
    the 256 bytes in the stream; and a [UserID] whose [EnableMDC] is set
    does not come back from its packet into a zero [UserID], whatever the
    packet reader. *)
Lemma Load_Packet_not_identity :
  (exists packet,
     UserID.Packet Sample.id256 = Some packet /\
     (forall read, packet_reader read ->
        UserID.Load read Sample.zero packet
        = Some (Sample.zero, Ok (UserID.ID Sample.id256))) /\
     Sample.zero <> Sample.id256) /\
  (exists packet,
     UserID.Packet Sample.alice = Some packet /\
     (forall read u' res,
        UserID.Load read Sample.zero packet = Some (u', res) ->
        u' <> Sample.alice)).
Proof.
  split.
  - eexists. split; [apply Packet_eq | split; [| discriminate]].
    intros read [_ Hread]. unfold UserID.Load.
    change (byte.of_Z (Go.len (UserID.ID Sample.id256))) with Byte.x00.
    pose proof (Hread Byte.x00 [] (UserID.ID Sample.id256) eq_refl) as Hpacket.
    cbn [app] in Hpacket. rewrite Hpacket. reflexivity.
  - eexists. split; [apply Packet_eq |].
    intros read u' res Hload Heq.
    destruct (Load_cases _ _ _ _ _ Hload)
      as [[Hsame _] | (_ & _ & _ & _ & _ & Hmdc & _)].
    + rewrite Heq in Hsame. discriminate.
    + rewrite Heq in Hmdc. discriminate.
Qed.

(** C5, amended: for every [UserID] whose identity is at most 255 bytes,
    [Load] on the bytes that [Packet] returns (whatever follows them in the
    stream) returns no error, sets the receiver's [ID] to the encoded
    identity and leaves the receiver's [EnableMDC]; the receiver then equals
    the encoded [UserID] when its [EnableMDC] was the same. *)
Theorem Load_Packet_roundtrip read (u v : UserID.t) (rest : Reader) :
  packet_reader read ->
  Go.len (UserID.ID u) <= 255 ->
  exists packet,
    UserID.Packet u = Some packet /\
    UserID.Load read v (packet ++ rest)
    = Some ({| UserID.ID := UserID.ID u;
               UserID.EnableMDC := UserID.EnableMDC v |}, Ok rest) /\
    (UserID.EnableMDC v = UserID.EnableMDC u ->
     UserID.Load read v (packet ++ rest) = Some (u, Ok rest)).
Proof.
  intros [_ Hread] Hlen. eexists. split; [apply Packet_eq |].
  assert (Hload :
    UserID.Load read v
      ((byte.of_Z (Z.lor 0xc0 13)
          :: byte.of_Z (Go.len (UserID.ID u)) :: UserID.ID u) ++ rest)
    = Some ({| UserID.ID := UserID.ID u;
               UserID.EnableMDC := UserID.EnableMDC v |}, Ok rest)).
  { unfold UserID.Load. cbn [app].
    rewrite Hread.
    - reflexivity.
    - rewrite byte_of_Z_small by (unfold Go.len in *; lia).
      unfold Go.len. lia. }
  split; [exact Hload |].
  intros Hmdc. rewrite Hload, Hmdc. destruct u; reflexivity.
Qed.

Lemma Load_Packet_roundtrip_witness :
  packet_reader readPacket /\
  Go.len (UserID.ID Sample.alice) <= 255 /\
  UserID.EnableMDC Sample.earlier = UserID.EnableMDC Sample.alice /\
  exists packet,
    UserID.Packet Sample.alice = Some packet /\
    UserID.Load readPacket Sample.earlier (packet ++ [Byte.xcd])
    = Some (Sample.alice, Ok [Byte.xcd]).
Proof.
  assert (Hlen : Go.len (UserID.ID Sample.alice) <= 255)
    by by_evaluation.
  assert (Hmdc : UserID.EnableMDC Sample.earlier
                 = UserID.EnableMDC Sample.alice) by reflexivity.
  split; [exact readPacket_packet_reader |].
  split; [exact Hlen | split; [exact Hmdc |]].
  destruct (Load_Packet_roundtrip readPacket Sample.alice Sample.earlier
              [Byte.xcd] readPacket_packet_reader Hlen)
    as (packet & Hpacket & _ & Hload).
  exists packet. split; [exact Hpacket | exact (Hload Hmdc)].
Defined.

(** C8: on a stream that does not start with the header byte [0xC0|13],
    [Load] returns an error and leaves the receiver as it was; and [Load]
    returns no error only on a stream that starts with a whole packet with
    that header, whose body becomes the identity: neither another tag nor a
    truncated packet is accepted. *)
Theorem Load_rejects_other_input read (u : UserID.t) (r : Reader) :
  packet_reader read ->
  ((forall header, hd_error r = Some header ->
                   byte.unsigned header <> Z.lor 0xc0 13) ->
   exists e, UserID.Load read u r = Some (u, Err e)) /\
  (forall u' r',
     UserID.Load read u r = Some (u', Ok r') ->
     exists header n body,
       r = header :: n :: body ++ r' /\
       byte.unsigned header = Z.lor 0xc0 13 /\
       List.length body = Z.to_nat (byte.unsigned n) /\
       UserID.ID u' = body) /\
  (exists result, UserID.Load read u r = Some result).
Proof.
  intros [Hsound _].
  split; [| split].
  - intros Htag. unfold UserID.Load.
    destruct (read r) as [[packet r'] | e] eqn:Hread; [| eauto].
    destruct (Hsound _ _ _ Hread) as (header & n & body & -> & -> & _).
    cbn [Go.index nth_error Go.bind].
    destruct (Z.eqb_spec (byte.unsigned header) (Z.lor 0xc0 13)) as [Heq | _];
      cbn [negb]; [| eauto].
    exfalso. exact (Htag header eq_refl Heq).
  - intros u' r' Hload.
    destruct (Load_cases _ _ _ _ _ Hload)
      as [[_ [e He]] | (packet & r'' & Hread & (head & Hhead & Htag) & Hid & _ & Hres)];
      [discriminate |].
    injection Hres as <-.
    destruct (Hsound _ _ _ Hread) as (header & n & body & -> & -> & Hlen).
    injection Hhead as ->.
    exists head, n, body.
    split; [reflexivity | split; [exact Htag | split; [exact Hlen |]]].
    unfold Go.slice_from in Hid. cbn in Hid. congruence.
  - unfold UserID.Load.
    destruct (read r) as [[packet r'] | e] eqn:Hread; [| eauto].
    destruct (Hsound _ _ _ Hread) as (header & n & body & -> & -> & _).
    cbn [Go.index nth_error Go.bind].
    destruct (negb _); [eauto |].
    rewrite slice_from_in_range by in_range.
    cbn [Go.bind]. eauto.
Qed.

Lemma Load_rejects_other_input_witness :
  packet_reader readPacket /\
  (exists e,
     UserID.Load readPacket Sample.alice [Byte.xc2; Byte.x01; Byte.x41]
     = Some (Sample.alice, Err e)) /\
  (exists e,
     UserID.Load readPacket Sample.alice [Byte.xcd; Byte.x02; Byte.x41]
     = Some (Sample.alice, Err e)) /\
  (UserID.Load readPacket Sample.alice [Byte.xcd; Byte.x01; Byte.x41; Byte.x42]
   = Some ({| UserID.ID := [Byte.x41]; UserID.EnableMDC := true |},
           Ok [Byte.x42]) /\
   exists header n body,
     [Byte.xcd; Byte.x01; Byte.x41; Byte.x42]
     = header :: n :: body ++ [Byte.x42] /\
     byte.unsigned header = Z.lor 0xc0 13 /\
     List.length body = Z.to_nat (byte.unsigned n) /\
     UserID.ID {| UserID.ID := [Byte.x41]; UserID.EnableMDC := true |} = body).
Proof.
  pose proof readPacket_packet_reader as Hreader.
  split; [exact Hreader | split; [| split]].
  - apply (proj1 (Load_rejects_other_input readPacket Sample.alice
                    [Byte.xc2; Byte.x01; Byte.x41] Hreader)).
    intros header [= <-]. vm_compute. discriminate.
  - exists FramingError. vm_compute. reflexivity.
  - assert (Hload :
      UserID.Load readPacket Sample.alice
        [Byte.xcd; Byte.x01; Byte.x41; Byte.x42]
      = Some ({| UserID.ID := [Byte.x41]; UserID.EnableMDC := true |},
              Ok [Byte.x42])) by by_evaluation.
    split; [exact Hload |].
    exact (proj1 (proj2 (Load_rejects_other_input readPacket Sample.alice
                           [Byte.xcd; Byte.x01; Byte.x41; Byte.x42] Hreader))
             _ _ Hload).
Defined.

(** ** [kdf] *)

Import passphrase2pgp.

Lemma Sample_IDKey_interface : Argon2_interface Sample.IDKey.
Proof.
  intros password salt time memory threads keyLen Htime Hthreads.
  unfold Sample.IDKey.
  destruct (Z.ltb_spec time 1); [lia |].
  destruct (Z.ltb_spec threads 1); [lia |].
  cbn [orb]. eexists. split; [reflexivity |].
  rewrite length_map, length_seq. reflexivity.
Qed.

(** Within the 32-bit range the two products reach [argon2.IDKey] as they
    are. *)
Lemma kdf_params_small (scale : Z) :
  1 <= scale <= 4095 ->
  kdf_params scale
  = {| time := 8 * scale; memory := 1048576 * scale;
       threads := 1; keyLen := 64 |}.
Proof.
  intros Hscale. unfold kdf_params, kdfTime, kdfMemory.
  rewrite !uint32_int, !uint32_small by lia.
  reflexivity.
Qed.

(** With at least one round, [kdf] returns the 64 bytes of [IDKey]. *)
Lemma kdf_seed IDKey (passphrase uid : list byte) (scale : Z) :
  Argon2_interface IDKey ->
  1 <= scale < 2 ^ 29 ->
  exists seed,
    kdf IDKey passphrase uid scale = Some seed /\
    List.length seed = 64%nat.
Proof.
  intros Hargon Hscale. unfold kdf. apply Hargon.
  - unfold kdf_params, kdfTime. cbn [time].
    rewrite uint32_int, uint32_small by lia. lia.
  - reflexivity.
Qed.

(** C1, as stated, fails: at difficulty 4096 the memory cost handed to
    Argon2id is 0, the product [1048576 * 4096] reduced to 32 bits. *)
Lemma kdf_memory_wraps :
  kdf_params 4096
  = {| time := 32768; memory := 0; threads := 1; keyLen := 64 |} /\
  memory (kdf_params 4096) <> 1048576 * 4096.
Proof. split; [reflexivity | vm_compute; discriminate]. Qed.

(** C1, amended: for every passphrase, identity and difficulty [d] from 1 to
    4095, [kdf] is Argon2id's [IDKey] with time cost [8*d], memory cost
    [1048576*d] KiB, parallelism 1, key length 64 and the identity as salt,
    and it returns 64 bytes; for a positive [d] these are the costs exactly
    when [d] is at most 4095. *)
Theorem kdf_argon2id IDKey (passphrase uid : list byte) (d : Z) :
  Argon2_interface IDKey ->
  0 < d ->
  (d <= 4095 ->
   kdf IDKey passphrase uid d
   = IDKey passphrase uid (8 * d) (1048576 * d) 1 64 /\
   exists seed,
     kdf IDKey passphrase uid d = Some seed /\ List.length seed = 64%nat) /\
  (kdf_params d
   = {| time := 8 * d; memory := 1048576 * d; threads := 1; keyLen := 64 |}
   <-> d <= 4095).
Proof.
  intros Hargon Hpos. split.
  - intros Hle. split; [| apply kdf_seed; [exact Hargon | lia]].
    unfold kdf. rewrite kdf_params_small by lia. reflexivity.
  - split; [| intros Hle; apply kdf_params_small; lia].
    intros Hparams.
    assert (Hmem : memory (kdf_params d) = 1048576 * d)
      by (rewrite Hparams; reflexivity).
    unfold kdf_params, kdfMemory in Hmem. cbn [memory] in Hmem.
    rewrite uint32_int in Hmem. unfold Go.uint32 in Hmem.
    pose proof (Z.mod_pos_bound (1024 * 1024 * d) (2 ^ 32) ltac:(lia)).
    lia.
Qed.

Lemma kdf_argon2id_witness :
  (kdf Sample.IDKey Sample.passphrase (list_byte_of_string "Alice") 2
   = Sample.IDKey Sample.passphrase (list_byte_of_string "Alice")
       (8 * 2) (1048576 * 2) 1 64 /\
   exists seed,
     kdf Sample.IDKey Sample.passphrase (list_byte_of_string "Alice") 2
     = Some seed /\ List.length seed = 64%nat) /\
  (kdf_params 2
   = {| time := 8 * 2; memory := 1048576 * 2; threads := 1; keyLen := 64 |}
   <-> 2 <= 4095).
Proof.
  destruct (kdf_argon2id Sample.IDKey Sample.passphrase
              (list_byte_of_string "Alice") 2 Sample_IDKey_interface)
    as [Hkdf Hparams]; [lia |].
  split; [apply Hkdf; lia | exact Hparams].
Defined.

(** ** The key-generation branch of [main] *)

(** A seed of 64 bytes is its first 32 bytes followed by its last 32. *)
Lemma seed_halves (seed : list byte) :
  List.length seed = 64%nat ->
  Go.slice_to seed 32 = Some (firstn 32 seed) /\
  Go.slice_from seed 32 = Some (skipn 32 seed) /\
  seed = firstn 32 seed ++ skipn 32 seed /\
  List.length (firstn 32 seed) = 32%nat /\
  List.length (skipn 32 seed) = 32%nat.
Proof.
  intros Hlen.
  rewrite slice_to_in_range, slice_from_in_range by lia.
  rewrite firstn_skipn, length_firstn, length_skipn.
  repeat split; lia.
Qed.

(** C2: in the key-generation branch the signing key is seeded with bytes
    0..31 of the 64-byte seed that [kdf] returns and, when a subkey is asked
    for, the encryption subkey with bytes 32..63 (without one, the subkey is
    not seeded); the two arguments are the two halves of the seed, so that
    no position of the seed is in both. *)
Theorem main_keygen_splits_seed IDKey {SignKey EncryptKey : Type}
    {SignKey_methods : Key SignKey} {EncryptKey_methods : Key EncryptKey}
    (o : options) (passphrase : list byte) (l : locals SignKey EncryptKey) :
  Argon2_interface IDKey ->
  exists seed lo hi l',
    kdf IDKey passphrase (list_byte_of_string (uid o))
      (if paranoid o then 2 else 1) = Some seed /\
    List.length seed = 64%nat /\
    seed = lo ++ hi /\
    List.length lo = 32%nat /\
    List.length hi = 32%nat /\
    (forall i, (i < 32)%nat ->
       nth_error lo i = nth_error seed i /\
       nth_error hi i = nth_error seed (32 + i)) /\
    main_keygen IDKey o passphrase l = Some l' /\
    key l' = SetCreated (Seed (key l) lo) (created o) /\
    subkey_ l'
    = (if subkey o
       then SetCreated (Seed (subkey_ l) hi) (created o)
       else subkey_ l).
Proof.
  intros Hargon.
  destruct (kdf_seed IDKey passphrase (list_byte_of_string (uid o))
              (if paranoid o then 2 else 1) Hargon)
    as (seed & Hseed & Hlen); [destruct (paranoid o); lia |].
  destruct (seed_halves seed Hlen) as (Hlo & Hhi & Hsplit & Hlenlo & Hlenhi).
  exists seed, (firstn 32 seed), (skipn 32 seed),
    {| key := SetCreated (Seed (key l) (firstn 32 seed)) (created o);
       subkey_ := if subkey o
                  then SetCreated (Seed (subkey_ l) (skipn 32 seed)) (created o)
                  else subkey_ l;
       userid := {| UserID.ID := list_byte_of_string (uid o);
                    UserID.EnableMDC := false |} |}.
  split; [exact Hseed | split; [exact Hlen | split; [exact Hsplit |]]].
  split; [exact Hlenlo | split; [exact Hlenhi | split; [| split]]].
  - intros i Hi. split.
    + rewrite Hsplit at 2. rewrite nth_error_app1 by lia. reflexivity.
    + rewrite Hsplit at 2. rewrite nth_error_app2 by lia.
      f_equal. lia.
  - unfold main_keygen. rewrite Hseed. cbn [Go.bind].
    rewrite Hlo. cbn [Go.bind].
    destruct (subkey o); [rewrite Hhi |]; reflexivity.
  - split; reflexivity.
Qed.

Lemma main_keygen_splits_seed_witness :
  exists seed lo hi l',
    kdf Sample.IDKey Sample.passphrase
      (list_byte_of_string (uid Sample.opts))
      (if paranoid Sample.opts then 2 else 1) = Some seed /\
    List.length seed = 64%nat /\
    seed = lo ++ hi /\
    List.length lo = 32%nat /\
    List.length hi = 32%nat /\
    (forall i, (i < 32)%nat ->
       nth_error lo i = nth_error seed i /\
       nth_error hi i = nth_error seed (32 + i)) /\
    main_keygen Sample.IDKey Sample.opts Sample.passphrase
      {| key := Sample.no_key; subkey_ := Sample.no_key;
         userid := Sample.zero |} = Some l' /\
    key l' = SetCreated (Seed Sample.no_key lo) (created Sample.opts) /\
    subkey_ l'
    = (if subkey Sample.opts
       then SetCreated (Seed Sample.no_key hi) (created Sample.opts)
       else Sample.no_key).
Proof.
  apply (main_keygen_splits_seed Sample.IDKey Sample.opts Sample.passphrase
           {| key := Sample.no_key; subkey_ := Sample.no_key;
              userid := Sample.zero |}).
  exact Sample_IDKey_interface.
Defined.

(** * Further properties *)

(** ** [UserID]: what the encodings determine *)

(** X1: [Packet] and [SignData] each determine the identity bytes and
    nothing else: two [UserID] values have the same packet, or the same
    data to sign, exactly when their identities are the same bytes, whatever
    their [EnableMDC] and whatever the length. *)
Theorem Packet_SignData_injective (u1 u2 : UserID.t) :
  (UserID.Packet u1 = UserID.Packet u2 <-> UserID.ID u1 = UserID.ID u2) /\
  (UserID.SignData u1 = UserID.SignData u2 <-> UserID.ID u1 = UserID.ID u2).
Proof.
  assert (Hsign : forall u,
    UserID.SignData u
    = Some ([byte.of_Z 0xb4; byte.of_Z 0; byte.of_Z 0; byte.of_Z 0]
              ++ byte.of_Z (Go.len (UserID.ID u)) :: UserID.ID u)).
  { intros u. unfold UserID.SignData. rewrite Packet_eq. cbn [Go.bind].
    rewrite slice_from_in_range by in_range. reflexivity. }
  split; split.
  - rewrite !Packet_eq. intros [= _ Hid]. exact Hid.
  - intros Hid. rewrite !Packet_eq, Hid. reflexivity.
  - rewrite !Hsign. cbn [app]. intros [= _ Hid]. exact Hid.
  - intros Hid. rewrite !Hsign, Hid. reflexivity.
Qed.

(** X2: for an identity of any length [SignData] returns [len(u.ID)+5]
    bytes: the tag [0xb4], three zero bytes, one byte that holds the length
    reduced modulo 256, and the identity.  The length field holds the length
    of the identity exactly when that is at most 255. *)
Theorem SignData_any_length (u : UserID.t) :
  exists n,
    UserID.SignData u
    = Some (Byte.xb4 :: Byte.x00 :: Byte.x00 :: Byte.x00 :: n :: UserID.ID u) /\
    byte.unsigned n = Go.len (UserID.ID u) mod 256 /\
    Go.len (Byte.xb4 :: Byte.x00 :: Byte.x00 :: Byte.x00 :: n :: UserID.ID u)
    = Go.len (UserID.ID u) + 5 /\
    (big_endian_value [Byte.x00; Byte.x00; Byte.x00; n] = Go.len (UserID.ID u)
     <-> Go.len (UserID.ID u) <= 255).
Proof.
  pose proof (Z.mod_pos_bound (Go.len (UserID.ID u)) 256 ltac:(lia)) as Hmod.
  assert (Hlen : 0 <= Go.len (UserID.ID u)) by (unfold Go.len; lia).
  exists (byte.of_Z (Go.len (UserID.ID u))).
  assert (Hn : byte.unsigned (byte.of_Z (Go.len (UserID.ID u)))
               = Go.len (UserID.ID u) mod 256)
    by (rewrite byte.unsigned_of_Z; reflexivity).
  split; [| split; [exact Hn | split]].
  - unfold UserID.SignData. rewrite Packet_eq. cbn [Go.bind].
    rewrite slice_from_in_range by in_range. reflexivity.
  - unfold Go.len. cbn [List.length]. lia.
  - unfold big_endian_value. cbn [fold_left]. rewrite Hn.
    change (byte.unsigned Byte.x00) with 0.
    split; intros H.
    + lia.
    + rewrite Z.mod_small by lia. lia.
Qed.

(** ** [UserID.Load]: the receiver *)

(** X3: an identity of any length is read back cut at its length modulo
    256: [Load], on the bytes that [Packet] returns, sets the receiver's
    [ID] to the first [len(u.ID) mod 256] bytes of the identity and leaves
    the other bytes of the identity at the head of the stream. *)
Theorem Load_Packet_truncates read (u v : UserID.t) (rest : Reader) :
  packet_reader read ->
  exists packet,
    UserID.Packet u = Some packet /\
    UserID.Load read v (packet ++ rest)
    = Some ({| UserID.ID :=
                 firstn (Z.to_nat (Go.len (UserID.ID u) mod 256)) (UserID.ID u);
               UserID.EnableMDC := UserID.EnableMDC v |},
            Ok (skipn (Z.to_nat (Go.len (UserID.ID u) mod 256)) (UserID.ID u)
                  ++ rest)).
Proof.
  intros [_ Hread].
  pose proof (Z.mod_pos_bound (Go.len (UserID.ID u)) 256 ltac:(lia)) as Hmod.
  assert (Hle : Go.len (UserID.ID u) mod 256 <= Go.len (UserID.ID u))
    by (apply Z.mod_le; unfold Go.len; lia).
  set (k := Z.to_nat (Go.len (UserID.ID u) mod 256)).
  eexists. split; [apply Packet_eq |].
  assert (Hstream :
    (byte.of_Z (Z.lor 0xc0 13)
       :: byte.of_Z (Go.len (UserID.ID u)) :: UserID.ID u) ++ rest
    = byte.of_Z (Z.lor 0xc0 13) :: byte.of_Z (Go.len (UserID.ID u))
        :: firstn k (UserID.ID u) ++ (skipn k (UserID.ID u) ++ rest)).
  { cbn [app]. rewrite app_assoc, firstn_skipn. reflexivity. }
  unfold UserID.Load. rewrite Hstream, Hread.
  - reflexivity.
  - rewrite length_firstn, byte.unsigned_of_Z. unfold byte.wrap.
    change (2 ^ 8) with 256. subst k. unfold Go.len in *.
    set (m := Z.of_nat (List.length (UserID.ID u)) mod 256) in *. lia.
Qed.

Lemma Load_Packet_truncates_witness :
  packet_reader readPacket /\
  exists packet,
    UserID.Packet Sample.id256 = Some packet /\
    UserID.Load readPacket Sample.earlier (packet ++ [Byte.xcd])
    = Some ({| UserID.ID :=
                 firstn (Z.to_nat (Go.len (UserID.ID Sample.id256) mod 256))
                   (UserID.ID Sample.id256);
               UserID.EnableMDC := UserID.EnableMDC Sample.earlier |},
            Ok (skipn (Z.to_nat (Go.len (UserID.ID Sample.id256) mod 256))
                  (UserID.ID Sample.id256) ++ [Byte.xcd])).
Proof.
  split; [exact readPacket_packet_reader |].
  apply (Load_Packet_truncates readPacket Sample.id256 Sample.earlier
           [Byte.xcd] readPacket_packet_reader).
Defined.

(** X4: [Load] is all or nothing, whatever the packet reader: when it
    returns an error the receiver is exactly as it was, and when it returns
    none the new [ID] does not depend on what the receiver held: a second
    receiver, given the same stream, ends with the same [ID], the same
    error or the same rest of the stream. *)
Theorem Load_all_or_nothing read (u v : UserID.t) (r : Reader) u' res :
  UserID.Load read u r = Some (u', res) ->
  (forall e, res = Err e -> u' = u) /\
  exists v',
    UserID.Load read v r = Some (v', res) /\
    (forall e, res = Err e -> v' = v) /\
    (forall r', res = Ok r' -> UserID.ID v' = UserID.ID u').
Proof.
  unfold UserID.Load.
  destruct (read r) as [[packet r'] | e].
  - destruct (Go.index packet 0) as [head |]; cbn [Go.bind]; [| discriminate].
    destruct (negb _).
    + intros [= <- <-]. split; [reflexivity |].
      exists v. repeat split; discriminate.
    + destruct (Go.slice_from packet 2) as [id |]; cbn [Go.bind];
        [| discriminate].
      intros [= <- <-]. split; [discriminate |].
      eexists. split; [reflexivity |]. split; [discriminate | reflexivity].
  - intros [= <- <-]. split; [reflexivity |].
    exists v. repeat split; discriminate.
Qed.

Lemma Load_all_or_nothing_witness :
  UserID.Load readPacket Sample.earlier [Byte.xcd; Byte.x01; Byte.x42]
  = Some ({| UserID.ID := [Byte.x42]; UserID.EnableMDC := true |}, Ok []) /\
  (forall e, Ok (A := Reader) [] = Err e ->
             {| UserID.ID := [Byte.x42]; UserID.EnableMDC := true |}
             = Sample.earlier) /\
  exists v',
    UserID.Load readPacket Sample.zero [Byte.xcd; Byte.x01; Byte.x42]
    = Some (v', Ok []) /\
    (forall e, Ok (A := Reader) [] = Err e -> v' = Sample.zero) /\
    (forall r', Ok (A := Reader) [] = Ok r' -> UserID.ID v' = [Byte.x42]).
Proof.
  assert (Hload :
    UserID.Load readPacket Sample.earlier [Byte.xcd; Byte.x01; Byte.x42]
    = Some ({| UserID.ID := [Byte.x42]; UserID.EnableMDC := true |}, Ok []))
    by by_evaluation.
  split; [exact Hload |].
  exact (Load_all_or_nothing readPacket Sample.earlier Sample.zero _ _ _ Hload).
Defined.

(** ** [kdf] and the key-generation branch *)

(** X5: the cost handed to Argon2id, rounds times memory, grows with the
    square of the scale, as the comment of [kdf] says: from 1 to 4095 it is
    [scale * scale] times the cost at scale 1, so that the paranoid mode
    (scale 2) costs four times the default. *)
Theorem kdf_cost_quadratic (scale : Z) :
  1 <= scale <= 4095 ->
  time (kdf_params scale) * memory (kdf_params scale)
  = scale * scale * (time (kdf_params 1) * memory (kdf_params 1)) /\
  time (kdf_params 2) * memory (kdf_params 2)
  = 4 * (time (kdf_params 1) * memory (kdf_params 1)).
Proof.
  intros Hscale.
  rewrite (kdf_params_small scale Hscale).
  rewrite (kdf_params_small 1), (kdf_params_small 2) by lia.
  cbn [time memory]. lia.
Qed.

Lemma kdf_cost_quadratic_witness :
  1 <= 3 <= 4095 /\
  time (kdf_params 3) * memory (kdf_params 3)
  = 3 * 3 * (time (kdf_params 1) * memory (kdf_params 1)) /\
  time (kdf_params 2) * memory (kdf_params 2)
  = 4 * (time (kdf_params 1) * memory (kdf_params 1)).
Proof.
  assert (H : 1 <= 3 <= 4095) by lia.
  split; [exact H | exact (kdf_cost_quadratic 3 H)].
Defined.

(** X6: whatever Argon2id returns, when the key-generation branch of [main]
    ends, the identity is the bytes of [options.uid] and [EnableMDC] is not
    set, so that [Subpackets] gives the key-flags subpacket alone: a key that
    [main] generates never carries the features subpacket. *)
Theorem main_keygen_userid IDKey {SignKey EncryptKey : Type}
    {SignKey_methods : Key SignKey} {EncryptKey_methods : Key EncryptKey}
    (o : options) (passphrase : list byte) (l l' : locals SignKey EncryptKey) :
  main_keygen IDKey o passphrase l = Some l' ->
  UserID.ID (userid l') = list_byte_of_string (uid o) /\
  UserID.EnableMDC (userid l') = false /\
  UserID.Subpackets (userid l')
  = Some [ {| Type' := 27; Data := [Byte.x03] |} ].
Proof.
  unfold main_keygen.
  destruct (kdf IDKey passphrase (list_byte_of_string (uid o))
              (if paranoid o then 2 else 1)) as [seed |];
    cbn [Go.bind]; [| discriminate].
  destruct (Go.slice_to seed 32) as [lo |]; cbn [Go.bind]; [| discriminate].
  destruct (subkey o).
  - destruct (Go.slice_from seed 32) as [hi |]; cbn [Go.bind];
      [| discriminate].
    intros [= <-]. repeat split.
  - intros [= <-]. repeat split.
Qed.

Lemma main_keygen_userid_witness :
  exists l',
    main_keygen Sample.IDKey Sample.opts Sample.passphrase
      {| key := Sample.no_key; subkey_ := Sample.no_key;
         userid := Sample.earlier |} = Some l' /\
    UserID.ID (userid l') = list_byte_of_string (uid Sample.opts) /\
    UserID.EnableMDC (userid l') = false /\
    UserID.Subpackets (userid l')
    = Some [ {| Type' := 27; Data := [Byte.x03] |} ].
Proof.
  eexists. split; [vm_compute; reflexivity |].
  refine (main_keygen_userid Sample.IDKey Sample.opts Sample.passphrase
            {| key := Sample.no_key; subkey_ := Sample.no_key;
               userid := Sample.earlier |} _ _).
  vm_compute. reflexivity.
Defined.

(** ** [readPassphrase] *)

Import cmd.

(** One step of a program on a known world. *)
Ltac run :=
  unfold cmd.bind, ret, lift, os_Exit, Stderr_Write, Stdout_Write,
    ReadPassword, Getenv, Now_Unix, Open, Stdin in *;
  cbn [environ unix_time terminal files stdin stdout_limit stdout stderr
       with_terminal with_stdout with_stderr] in *.

(** [n] rounds of confirmation succeed when the next [n] answers are the
    passphrase; each writes a prompt and a newline. *)
Lemma readPassphrase_loop_accepts (n : nat) (p tail : list byte) rest w :
  terminal w = List.repeat (Val p) n ++ rest ->
  readPassphrase_loop n p tail w
  = (with_stderr (with_terminal w rest)
       (stderr w
          ++ List.concat (List.repeat
                       (list_byte_of_string "passphrase (repeat): " ++ tail)
                       n)),
     Return (Val p)).
Proof.
  revert w. induction n as [| n IH]; intros w Hterm.
  - destruct w. cbn in *. subst. rewrite app_nil_r. reflexivity.
  - cbn [List.repeat app] in Hterm.
    cbn [readPassphrase_loop]. run. rewrite Hterm. run.
    destruct (list_eq_dec Byte.byte_eq_dec p p) as [_ | Hne];
      [| contradiction]. cbn [negb].
    rewrite IH by reflexivity.
    destruct w. run. cbn [List.repeat List.concat].
    rewrite <- !app_assoc. reflexivity.
Qed.

(** When [n] rounds return a passphrase, it is the one they were given and
    the [n] answers were that passphrase. *)
Lemma readPassphrase_loop_Val (n : nat) (p tail : list byte) w w' q :
  readPassphrase_loop n p tail w = (w', Return (Val q)) ->
  q = p /\
  terminal w = List.repeat (Val p) n ++ terminal w' /\
  stderr w'
  = stderr w
      ++ List.concat (List.repeat
                   (list_byte_of_string "passphrase (repeat): " ++ tail) n).
Proof.
  revert w. induction n as [| n IH]; intros w.
  - cbn [readPassphrase_loop]. run. intros [= <- <-].
    rewrite app_nil_r. auto.
  - cbn [readPassphrase_loop]. run.
    destruct (terminal w) as [| [again | e] t] eqn:Hterm; run;
      try discriminate.
    destruct (list_eq_dec Byte.byte_eq_dec again p) as [-> | Hne];
      cbn [negb]; [| discriminate].
    intros Hloop. apply IH in Hloop. run.
    destruct Hloop as (-> & Ht & Herr).
    split; [reflexivity | split].
    + cbn [List.repeat app]. rewrite Ht. reflexivity.
    + rewrite Herr. cbn [List.repeat List.concat].
      rewrite <- !app_assoc. reflexivity.
Qed.

(** The first answer that is not the passphrase ends the rounds: with the
    error of the terminal, or with the mismatch. *)
Lemma readPassphrase_loop_rejects (n i : nat) (p tail : list byte) a rest w :
  (i < n)%nat ->
  terminal w = List.repeat (Val p) i ++ a :: rest ->
  a <> Val p ->
  exists w',
    readPassphrase_loop n p tail w
    = (w', Return (Fail match a with
                        | Fail err => err
                        | Val _ => errors_New "passphrases do not match"
                        end)) /\
    terminal w' = rest.
Proof.
  revert n w. induction i as [| i IH]; intros [| n] w Hi Hterm Ha; try lia.
  - cbn [List.repeat app] in Hterm.
    cbn [readPassphrase_loop]. run. rewrite Hterm.
    destruct a as [again | err]; run.
    + destruct (list_eq_dec Byte.byte_eq_dec again p) as [-> | _];
        [contradiction |].
      cbn [negb]. eexists. split; reflexivity.
    + eexists. split; reflexivity.
  - cbn [List.repeat app] in Hterm.
    cbn [readPassphrase_loop]. run. rewrite Hterm. run.
    destruct (list_eq_dec Byte.byte_eq_dec p p) as [_ | Hne];
      [| contradiction]. cbn [negb].
    apply IH; [lia | reflexivity | exact Ha].
Qed.

(** The rounds only return; they take at most [n] answers, only add to
    standard error, and leave standard output, the files, the environment
    and the clock as they were. *)
Lemma readPassphrase_loop_frame (n : nat) (p tail : list byte) w w' out :
  readPassphrase_loop n p tail w = (w', out) ->
  (exists r, out = Return r) /\
  environ w' = environ w /\ unix_time w' = unix_time w /\
  files w' = files w /\
  stdout_limit w' = stdout_limit w /\ stdout w' = stdout w /\
  (exists text, stderr w' = stderr w ++ text) /\
  (exists k, (k <= n)%nat /\ terminal w' = skipn k (terminal w)).
Proof.
  assert (Hnil : forall l : list byte, l = l ++ [])
    by (intros l; rewrite app_nil_r; reflexivity).
  revert w. induction n as [| n IH]; intros w.
  - cbn [readPassphrase_loop]. run. intros [= <- <-].
    split; [eauto |]. do 5 (split; [reflexivity |]).
    split; [exists []; apply Hnil |].
    exists 0%nat. split; [lia | reflexivity].
  - cbn [readPassphrase_loop]. run.
    destruct (terminal w) as [| [again | err] t] eqn:Hterm; run.
    + intros [= <- <-]. run.
      split; [eauto |]. do 5 (split; [reflexivity |]).
      split; [eauto |].
      exists 0%nat. try rewrite Hterm. split; [lia | reflexivity].
    + destruct (negb _).
      * intros [= <- <-]. run.
        split; [eauto |]. do 5 (split; [reflexivity |]).
        split; [rewrite <- app_assoc; eauto |].
        exists 1%nat. try rewrite Hterm. split; [lia | reflexivity].
      * intros Hloop. apply IH in Hloop. run.
        destruct Hloop
          as (Hout & -> & -> & -> & -> & -> & [text ->] & k & Hk & ->).
        split; [exact Hout |]. do 5 (split; [reflexivity |]).
        split; [rewrite <- !app_assoc; eauto |].
        exists (S k). try rewrite Hterm. split; [lia | reflexivity].
    + intros [= <- <-]. run.
      split; [eauto |]. do 5 (split; [reflexivity |]).
      split; [eauto |].
      exists 1%nat. try rewrite Hterm. split; [lia | reflexivity].
Qed.

(** When the answers run out during the rounds, the error is [io.EOF]. *)
Lemma readPassphrase_loop_exhausted (n i : nat) (p tail : list byte) w :
  (i < n)%nat ->
  terminal w = List.repeat (Val p) i ->
  exists w',
    readPassphrase_loop n p tail w = (w', Return (Fail io_EOF)) /\
    terminal w' = [].
Proof.
  revert n w. induction i as [| i IH]; intros [| n] w Hi Hterm; try lia.
  - cbn [List.repeat] in Hterm.
    cbn [readPassphrase_loop]. run. rewrite Hterm.
    eexists. split; [reflexivity |]. run. exact Hterm.
  - cbn [List.repeat] in Hterm.
    cbn [readPassphrase_loop]. run. rewrite Hterm. run.
    destruct (list_eq_dec Byte.byte_eq_dec p p) as [_ | Hne];
      [| contradiction]. cbn [negb].
    apply IH; [lia | reflexivity].
Qed.

(** X7: [readPassphrase] returns a passphrase exactly when the first answer
    and the [repeat] confirmations that follow are all that passphrase (with
    [repeat] at most 0 there is no confirmation).  It has then read these
    [1 + repeat] answers and no more, and has written to standard error the
    prompt and a newline, then a confirmation prompt and a newline for each
    round. *)
Theorem readPassphrase_confirmed (repeat : Z) (w : World) :
  (forall w' p,
     readPassphrase repeat w = (w', Return (Val p)) ->
     terminal w = List.repeat (Val p) (S (Z.to_nat repeat)) ++ terminal w' /\
     stderr w'
     = stderr w ++ list_byte_of_string "passphrase: " ++ [Byte.x0a]
         ++ List.concat
              (List.repeat
                 (list_byte_of_string "passphrase (repeat): " ++ [Byte.x0a])
                 (Z.to_nat repeat))) /\
  (forall p rest,
     terminal w = List.repeat (Val p) (S (Z.to_nat repeat)) ++ rest ->
     exists w',
       readPassphrase repeat w = (w', Return (Val p)) /\
       terminal w' = rest).
Proof.
  split.
  - intros w' p. unfold readPassphrase. run.
    destruct (terminal w) as [| [first | err] t] eqn:Hterm; run;
      try discriminate.
    intros Hloop. apply readPassphrase_loop_Val in Hloop. run.
    destruct Hloop as (-> & Ht & Herr).
    split.
    + cbn [List.repeat app]. rewrite Ht. reflexivity.
    + rewrite Herr, <- !app_assoc. reflexivity.
  - intros p rest Hterm. cbn [List.repeat app] in Hterm.
    unfold readPassphrase. run. rewrite Hterm. run.
    rewrite readPassphrase_loop_accepts with (rest := rest) by reflexivity.
    eexists. split; reflexivity.
Qed.

Lemma readPassphrase_confirmed_witness :
  (exists w',
     readPassphrase 1
       (Fixture.world [Val Fixture.hunter2; Val Fixture.hunter2; Val []]
          Fixture.no_env)
     = (w', Return (Val Fixture.hunter2)) /\
     [Val Fixture.hunter2; Val Fixture.hunter2; Val []]
     = List.repeat (Val Fixture.hunter2) (S (Z.to_nat 1)) ++ terminal w' /\
     stderr w'
     = [] ++ list_byte_of_string "passphrase: " ++ [Byte.x0a]
         ++ List.concat
              (List.repeat
                 (list_byte_of_string "passphrase (repeat): " ++ [Byte.x0a])
                 (Z.to_nat 1))) /\
  (exists w',
     readPassphrase 0
       (Fixture.world [Val Fixture.hunter2; Val []] Fixture.no_env)
     = (w', Return (Val Fixture.hunter2)) /\
     terminal w' = [Val []]).
Proof.
  split.
  - eexists. split; [vm_compute; reflexivity |].
    refine (proj1 (readPassphrase_confirmed 1
                     (Fixture.world
                        [Val Fixture.hunter2; Val Fixture.hunter2; Val []]
                        Fixture.no_env)) _ _ _).
    vm_compute. reflexivity.
  - apply (proj2 (readPassphrase_confirmed 0
                    (Fixture.world [Val Fixture.hunter2; Val []]
                       Fixture.no_env))).
    reflexivity.
Defined.

(** X8: [readPassphrase] returns the error of the first answer that fails,
    [io.EOF] when the answers run out, and the error "passphrases do not
    match" at the first confirmation that differs from the first answer; in
    each case it reads no answer after that one. *)
Theorem readPassphrase_rejected (repeat : Z) (w : World) :
  (forall err rest,
     terminal w = Fail err :: rest ->
     exists w',
       readPassphrase repeat w = (w', Return (Fail err)) /\
       terminal w' = rest /\
       stderr w' = stderr w ++ list_byte_of_string "passphrase: ") /\
  (forall p i,
     (i < S (Z.to_nat repeat))%nat ->
     terminal w = List.repeat (Val p) i ->
     exists w',
       readPassphrase repeat w = (w', Return (Fail io_EOF)) /\
       terminal w' = []) /\
  (forall p i a rest,
     (i < Z.to_nat repeat)%nat ->
     terminal w = Val p :: List.repeat (Val p) i ++ a :: rest ->
     a <> Val p ->
     exists w',
       readPassphrase repeat w
       = (w', Return (Fail match a with
                           | Fail err => err
                           | Val _ => errors_New "passphrases do not match"
                           end)) /\
       terminal w' = rest).
Proof.
  split; [| split].
  - intros err rest Hterm. unfold readPassphrase. run. rewrite Hterm.
    eexists. split; [reflexivity |]. run. auto.
  - intros p [| i] Hi Hterm; cbn [List.repeat] in Hterm;
      unfold readPassphrase; run; rewrite Hterm; run.
    + eexists. split; [reflexivity |]. run. exact Hterm.
    + apply readPassphrase_loop_exhausted with (i := i); [lia | reflexivity].
  - intros p i a rest Hi Hterm Ha.
    unfold readPassphrase. run. rewrite Hterm. run.
    apply readPassphrase_loop_rejects with (i := i);
      [exact Hi | reflexivity | exact Ha].
Qed.

Lemma readPassphrase_rejected_witness :
  (exists w',
     readPassphrase 2
       (Fixture.world
          [Val Fixture.hunter2; Val Fixture.hunter2; Val []; Val Fixture.hunter2]
          Fixture.no_env)
     = (w', Return (Fail (errors_New "passphrases do not match"))) /\
     terminal w' = [Val Fixture.hunter2]) /\
  (exists w',
     readPassphrase 2
       (Fixture.world [Val Fixture.hunter2; Val Fixture.hunter2] Fixture.no_env)
     = (w', Return (Fail io_EOF)) /\
     terminal w' = []).
Proof.
  split.
  - apply (proj2 (proj2 (readPassphrase_rejected 2
                           (Fixture.world
                              [Val Fixture.hunter2; Val Fixture.hunter2;
                               Val []; Val Fixture.hunter2]
                              Fixture.no_env)))
             Fixture.hunter2 1%nat (Val []) [Val Fixture.hunter2]).
    + vm_compute. lia.
    + reflexivity.
    + discriminate.
  - apply (proj1 (proj2 (readPassphrase_rejected 2
                           (Fixture.world
                              [Val Fixture.hunter2; Val Fixture.hunter2]
                              Fixture.no_env)))
             Fixture.hunter2 2%nat).
    + vm_compute. lia.
    + reflexivity.
Defined.

(** X9: [readPassphrase] only returns: it never exits the process and never
    panics.  It takes at most [1 + repeat] answers from descriptor 0, only
    adds to standard error, beginning with the prompt, and leaves standard
    output, the files, the environment and the clock as they were. *)
Theorem readPassphrase_frame (repeat : Z) (w w' : World) out :
  readPassphrase repeat w = (w', out) ->
  (exists r, out = Return r) /\
  environ w' = environ w /\ unix_time w' = unix_time w /\
  files w' = files w /\
  stdout_limit w' = stdout_limit w /\ stdout w' = stdout w /\
  (exists text,
     stderr w' = stderr w ++ list_byte_of_string "passphrase: " ++ text) /\
  (exists k, (k <= S (Z.to_nat repeat))%nat /\
             terminal w' = skipn k (terminal w)).
Proof.
  unfold readPassphrase. run.
  destruct (terminal w) as [| [first | err] t] eqn:Hterm; run.
  - intros [= <- <-]. run.
    split; [eauto |]. do 5 (split; [reflexivity |]).
    split; [exists []; reflexivity |].
    exists 0%nat. rewrite Hterm. split; [lia | reflexivity].
  - intros Hloop. apply readPassphrase_loop_frame in Hloop. run.
    destruct Hloop
      as (Hout & -> & -> & -> & -> & -> & [text ->] & k & Hk & ->).
    split; [exact Hout |]. do 5 (split; [reflexivity |]).
    split; [rewrite <- !app_assoc; eauto |].
    exists (S k). split; [lia | reflexivity].
  - intros [= <- <-]. run.
    split; [eauto |]. do 5 (split; [reflexivity |]).
    split; [exists []; reflexivity |].
    exists 1%nat. split; [lia | reflexivity].
Qed.

Lemma readPassphrase_frame_witness :
  exists w' out,
    readPassphrase 1
      (Fixture.world [Val Fixture.hunter2; Fail (library_error "interrupted")]
         Fixture.no_env) = (w', out) /\
    (exists r, out = Return r) /\
    stdout w' = [] /\
    (exists text,
       stderr w' = [] ++ list_byte_of_string "passphrase: " ++ text) /\
    (exists k, (k <= S (Z.to_nat 1))%nat /\
               terminal w'
               = skipn k [Val Fixture.hunter2;
                          Fail (library_error "interrupted")]).
Proof.
  do 2 eexists. split; [vm_compute; reflexivity |].
  destruct (readPassphrase_frame 1
              (Fixture.world
                 [Val Fixture.hunter2; Fail (library_error "interrupted")]
                 Fixture.no_env) _ _ eq_refl)
    as (Hout & _ & _ & _ & _ & Hstdout & Hstderr & Hterm).
  split; [exact Hout | split; [exact Hstdout | split; assumption]].
Defined.

(** ** [parse] *)

(** A string that starts with a non-empty string is not empty. *)
Lemma append_nonempty (s t : string) :
  s <> EmptyString -> ((s ++ t)%string =? "")%string = false.
Proof. destruct s; [contradiction | reflexivity]. Qed.

(** The two updates of [parse] on an [options] that needs neither. *)
Lemma with_uid_created_same (o : options) :
  with_created (with_uid o (uid o)) (created o) = o.
Proof. destruct o. reflexivity. Qed.

(** The statements of [parse] that follow [flag.Parse()], on the flags [o]
    it returned: the exit of [-h], the exit of [fatal], or the return. *)
Lemma parse_cases (usage : list byte) (o : options) (w : World) :
  exists w' out,
    parse usage o w = (w', out) /\
    match out with
    | Exit status =>
        (status = 0 /\ help o = true /\ stderr w' = stderr w) \/
        (status = 1 /\ help o = false /\
         uid o = EmptyString /\ load o = EmptyString /\
         (environ w "EMAIL" = EmptyString \/
          environ w "REALNAME" = EmptyString) /\
         stdout w' = stdout w /\
         stderr w'
         = stderr w
             ++ list_byte_of_string
                  "passphrase2pgp: must have either -u or -l option"
             ++ [Byte.x0a])
    | Return o' =>
        help o = false /\ w' = w /\
        (uid o' <> EmptyString \/ load o' <> EmptyString) /\
        ~ (uid o = EmptyString /\ load o = EmptyString /\
           (environ w "EMAIL" = EmptyString \/
            environ w "REALNAME" = EmptyString))
    | Panic => False
    end.
Proof.
  unfold parse, fatal. run.
  destruct (help o) eqn:Hhelp.
  - destruct (stdout_limit w) as [[n e] |]; run;
      do 2 eexists; (split; [reflexivity |]); left; auto.
  - destruct (String.eqb_spec (uid o) "") as [Huid | Huid];
      [destruct (String.eqb_spec (load o) "") as [Hload | Hload] |];
      cbn [andb].
    + destruct (String.eqb_spec (environ w "EMAIL") "") as [Hemail | Hemail];
        cbn [negb].
      * rewrite Huid. cbn [String.eqb]. run.
        do 2 eexists. split; [reflexivity |]. right.
        rewrite <- app_assoc. auto 10.
      * destruct (String.eqb_spec (environ w "REALNAME") "")
          as [Hname | Hname]; cbn [negb].
        -- rewrite Huid. cbn [String.eqb]. run.
           do 2 eexists. split; [reflexivity |]. right.
           rewrite <- app_assoc. auto 10.
        -- cbn [uid with_uid]. rewrite append_nonempty by exact Hname.
           cbn [now with_uid].
           destruct (now o); run; do 2 eexists; (split; [reflexivity |]);
             cbn [uid load with_uid with_created];
             (split; [reflexivity | split; [reflexivity | split]]);
             try (left; destruct (environ w "REALNAME");
                  [contradiction | discriminate]);
             intros (_ & _ & [H | H]); contradiction.
    + destruct (now o); run; do 2 eexists; (split; [reflexivity |]);
        cbn [uid load with_uid with_created];
        (split; [reflexivity | split; [reflexivity | split]]);
        try (right; exact Hload);
        intros (_ & H & _); contradiction.
    + destruct (now o); run; do 2 eexists; (split; [reflexivity |]);
        cbn [uid load with_uid with_created];
        (split; [reflexivity | split; [reflexivity | split]]);
        try (left; exact Huid);
        intros (H & _); contradiction.
Qed.

(** X11: what [parse] returns.  Only the user ID and the creation date can
    differ from the flags: the user ID is the one of the command line when
    [-u] or [-l] is given, the environment being then ignored, and
    [REALNAME <EMAIL>] otherwise; the creation date is the clock with [-n],
    which overrides [-t], and the one of [-t] without. *)
Theorem parse_returns (usage : list byte) (o o' : options) (w w' : World) :
  parse usage o w = (w', Return o') ->
  o' = with_created
         (with_uid o
            (if (uid o =? "")%string && (load o =? "")%string
             then (environ w "REALNAME" ++ " <" ++ environ w "EMAIL" ++ ">")%string
             else uid o))
         (if now o then unix_time w else created o) /\
  (uid o <> EmptyString \/ load o <> EmptyString -> uid o' = uid o).
Proof.
  unfold parse, fatal. run.
  destruct (help o) eqn:Hhelp.
  { destruct (stdout_limit w) as [[n e] |]; run; discriminate. }
  destruct (String.eqb_spec (uid o) "") as [Huid | Huid];
    [destruct (String.eqb_spec (load o) "") as [Hload | Hload] |];
    cbn [andb].
  - destruct (String.eqb_spec (environ w "EMAIL") "") as [Hemail | Hemail];
      cbn [negb].
    { rewrite Huid. cbn [String.eqb]. run. discriminate. }
    destruct (String.eqb_spec (environ w "REALNAME") "") as [Hname | Hname];
      cbn [negb].
    { rewrite Huid. cbn [String.eqb]. run. discriminate. }
    cbn [uid with_uid]. rewrite append_nonempty by exact Hname.
    cbn [now with_uid].
    destruct (now o) eqn:Hnow; run; intros [= <- <-];
      (split; [destruct o; cbn in *; subst; reflexivity |]);
      intros [H | H]; contradiction.
  - destruct (now o) eqn:Hnow; run; intros [= <- <-];
      (split; [destruct o; cbn in *; subst; reflexivity | reflexivity]).
  - destruct (now o) eqn:Hnow; run; intros [= <- <-];
      (split; [destruct o; cbn in *; subst; reflexivity | reflexivity]).
Qed.

Lemma parse_returns_witness :
  exists o',
    parse [] Fixture.flags_now
      (Fixture.world [] Fixture.env_alice)
    = (Fixture.world [] Fixture.env_alice, Return o') /\
    uid o' = "Alice <alice@example.org>"%string /\
    created o' = 1700000000 /\
    (exists w' o'',
       parse [] Sample.opts (Fixture.world [] Fixture.env_alice)
       = (w', Return o'') /\
       uid o'' = uid Sample.opts).
Proof.
  assert (Henv :
    parse [] Fixture.flags_now (Fixture.world [] Fixture.env_alice)
    = (Fixture.world [] Fixture.env_alice,
       Return (with_created
                 (with_uid Fixture.flags_now "Alice <alice@example.org>")
                 1700000000))) by by_evaluation.
  assert (Hcli :
    parse [] Sample.opts (Fixture.world [] Fixture.env_alice)
    = (Fixture.world [] Fixture.env_alice, Return Sample.opts))
    by by_evaluation.
  eexists. split; [exact Henv |].
  destruct (parse_returns _ _ _ _ _ Henv) as [-> _].
  split; [reflexivity | split; [reflexivity |]].
  do 2 eexists. split; [exact Hcli |].
  apply (proj2 (parse_returns _ _ _ _ _ Hcli)).
  left. discriminate.
Defined.

(** ** [firstLine] *)

(** X12: [firstLine] changes nothing in the world and only returns.  On a
    file that opens, it returns the bytes of the scanner when the scanner
    has a line; when it has none, it returns the error of the scanner,
    except that no error, or [io.EOF], gives the empty line: it does not
    return [io.EOF]. *)
Theorem firstLine_no_EOF (bufio_Scan : Reader -> Scanner)
    (filename : string) (content : Reader) (w : World) :
  files w filename = Val content ->
  exists r,
    firstLine bufio_Scan filename w = (w, Return r) /\
    r <> Fail io_EOF /\
    (Scan (bufio_Scan content) = true ->
     r = Val (Bytes (bufio_Scan content))) /\
    (Scan (bufio_Scan content) = false ->
     r = match Err (bufio_Scan content) with
         | Some io_EOF | None => Val []
         | Some err => Fail err
         end).
Proof.
  intros Hfile. unfold firstLine. run. rewrite Hfile.
  destruct (Scan (bufio_Scan content)); cbn [negb].
  - eexists. split; [reflexivity |].
    split; [discriminate | split; [reflexivity | discriminate]].
  - destruct (Err (bufio_Scan content)) as [[| msg | msg | e] |];
      cbn [is_EOF negb]; eexists; (split; [reflexivity |]);
      (split; [discriminate | split; [discriminate | reflexivity]]).
Qed.

(** ** [main]: what it leaves alone *)

Import Effect.

Section Frames.

Context {A B : Type}.

Lemma silent_ret (a : A) : silent (ret a).
Proof. intros w w' out [= <- <-]. repeat split. discriminate. Qed.

Lemma silent_bind (m : prog A) (k : A -> prog B) :
  silent m -> (forall a, silent (k a)) -> silent (cmd.bind m k).
Proof.
  intros Hm Hk w w' out. unfold cmd.bind.
  destruct (m w) as [w1 [a | status |]] eqn:Hmw;
    destruct (Hm _ _ _ Hmw) as (Hout & Hlimit & Hexit).
  - intros Hka. destruct (Hk _ _ _ _ Hka) as (Hout' & Hlimit' & Hexit').
    split; [congruence | split; [congruence | exact Hexit']].
  - intros [= <- <-]. split; [exact Hout | split; [exact Hlimit |]].
    intros s [= <-]. apply Hexit. reflexivity.
  - intros [= <- <-]. repeat split; try assumption. discriminate.
Qed.

Lemma silent_lift (m : option A) : silent (lift m).
Proof.
  intros w w' out. unfold lift.
  destruct m; intros [= <- <-]; repeat split; discriminate.
Qed.

Lemma silent_fatal (message : string) : silent (fatal (A := A) message).
Proof.
  intros w w' out. unfold fatal. run. intros [= <- <-]. run.
  repeat split. intros s [= <-]. reflexivity.
Qed.

Lemma deaf_ret (a : A) : deaf (ret a).
Proof. intros w w' out [= <- <-]. reflexivity. Qed.

Lemma deaf_bind (m : prog A) (k : A -> prog B) :
  deaf m -> (forall a, deaf (k a)) -> deaf (cmd.bind m k).
Proof.
  intros Hm Hk w w' out. unfold cmd.bind.
  destruct (m w) as [w1 [a | status |]] eqn:Hmw;
    pose proof (Hm _ _ _ Hmw) as Hterm.
  - intros Hka. rewrite (Hk _ _ _ _ Hka). exact Hterm.
  - intros [= <- <-]. exact Hterm.
  - intros [= <- <-]. exact Hterm.
Qed.

Lemma deaf_lift (m : option A) : deaf (lift m).
Proof.
  intros w w' out. unfold lift. destruct m; intros [= <- <-]; reflexivity.
Qed.

Lemma deaf_fatal (message : string) : deaf (fatal (A := A) message).
Proof.
  intros w w' out. unfold fatal. run. intros [= <- <-]. reflexivity.
Qed.

End Frames.

Lemma silent_Stderr_Write b : silent (Stderr_Write b).
Proof.
  intros w w' out. run. intros [= <- <-]. repeat split. discriminate.
Qed.

Lemma deaf_Stderr_Write b : deaf (Stderr_Write b).
Proof. intros w w' out. run. intros [= <- <-]. reflexivity. Qed.

Lemma silent_ReadPassword : silent ReadPassword.
Proof.
  intros w w' out. run.
  destruct (terminal w); intros [= <- <-]; repeat split; discriminate.
Qed.

Lemma silent_Open name : silent (Open name).
Proof.
  intros w w' out. run. intros [= <- <-]. repeat split. discriminate.
Qed.

Lemma deaf_Open name : deaf (Open name).
Proof. intros w w' out. run. intros [= <- <-]. reflexivity. Qed.

Lemma silent_Stdin : silent Stdin.
Proof.
  intros w w' out. run. intros [= <- <-]. repeat split. discriminate.
Qed.

Lemma deaf_Stdin : deaf Stdin.
Proof. intros w w' out. run. intros [= <- <-]. reflexivity. Qed.

Lemma deaf_Stdout_Write b : deaf (Stdout_Write b).
Proof.
  intros w w' out. run.
  destruct (stdout_limit w) as [[n e] |]; intros [= <- <-]; reflexivity.
Qed.

Create HintDb frames.

#[local] Hint Resolve silent_ret silent_bind silent_lift silent_fatal
  silent_Stderr_Write silent_ReadPassword silent_Open silent_Stdin : frames.
#[local] Hint Resolve deaf_ret deaf_bind deaf_lift deaf_fatal
  deaf_Stderr_Write deaf_Open deaf_Stdin deaf_Stdout_Write : frames.

Lemma silent_readPassphrase repeat : silent (readPassphrase repeat).
Proof.
  assert (Hloop : forall n p tail, silent (readPassphrase_loop n p tail)).
  { induction n as [| n IH]; intros p tail; cbn [readPassphrase_loop];
      [auto with frames |].
    repeat (apply silent_bind; [auto with frames | intros ?]).
    destruct a0; [| auto with frames].
    apply silent_bind; [auto with frames | intros _].
    destruct (negb _); auto with frames. }
  unfold readPassphrase.
  repeat (apply silent_bind; [auto with frames | intros ?]).
  destruct a0; auto with frames.
Qed.

Lemma silent_firstLine scan filename : silent (firstLine scan filename).
Proof.
  unfold firstLine. apply silent_bind; [auto with frames | intros f].
  destruct f as [f | e]; [| auto with frames].
  destruct (negb _); [| auto with frames].
  destruct (Err _) as [e |]; [| auto with frames].
  destruct (negb _); auto with frames.
Qed.

Lemma deaf_firstLine scan filename : deaf (firstLine scan filename).
Proof.
  unfold firstLine. apply deaf_bind; [auto with frames | intros f].
  destruct f as [f | e]; [| auto with frames].
  destruct (negb _); [| auto with frames].
  destruct (Err _) as [e |]; [| auto with frames].
  destruct (negb _); auto with frames.
Qed.

Section MainFrames.

Variable usage : list byte.
Variable Error : error -> string.
Variable bufio_Scan : Reader -> Scanner.
Variable IDKey :
  list byte -> list byte -> Z -> Z -> Z -> Z -> option (list byte).
Variable read : Reader -> result (list byte * Reader).
Variable Armor : list byte -> list byte.

Context {SignKey EncryptKey : Type}.
Context {SignKey_seed : Key SignKey} {EncryptKey_seed : Key EncryptKey}.
Context {SignKey_methods : SignKeyMethods SignKey EncryptKey}.
Context {EncryptKey_methods : EncryptKeyMethods EncryptKey}.

Lemma silent_main_passphrase o : silent (main_passphrase Error bufio_Scan o).
Proof.
  unfold main_passphrase. apply silent_bind.
  - destruct (negb _);
      [apply silent_firstLine | apply silent_readPassphrase].
  - intros [p | e]; auto with frames.
Qed.

Lemma silent_main_load o (l : locals SignKey EncryptKey) :
  silent (main_load Error read o l).
Proof.
  unfold main_load. apply silent_bind; [auto with frames | intros f].
  destruct f as [f | e]; [| auto with frames].
  destruct (SignKey_Load (key l) f) as [key' [f' | e]]; [| auto with frames].
  apply silent_bind; [auto with frames | intros [u' [f'' | e]]];
    auto with frames.
Qed.

Lemma deaf_main_load o (l : locals SignKey EncryptKey) :
  deaf (main_load Error read o l).
Proof.
  unfold main_load. apply deaf_bind; [auto with frames | intros f].
  destruct f as [f | e]; [| auto with frames].
  destruct (SignKey_Load (key l) f) as [key' [f' | e]]; [| auto with frames].
  apply deaf_bind; [auto with frames | intros [u' [f'' | e]]];
    auto with frames.
Qed.

Lemma silent_main_output o (l : locals SignKey EncryptKey) :
  silent (main_output Error o l).
Proof.
  unfold main_output. destruct (sign o).
  - apply silent_bind; [auto with frames | intros input].
    destruct (SignKey_Sign (key l) input); auto with frames.
  - apply silent_bind; [auto with frames | intros id_packet].
    destruct (public o); auto with frames.
Qed.

Lemma deaf_main_output o (l : locals SignKey EncryptKey) :
  deaf (main_output Error o l).
Proof.
  unfold main_output. destruct (sign o).
  - apply deaf_bind; [auto with frames | intros input].
    destruct (SignKey_Sign (key l) input); auto with frames.
  - apply deaf_bind; [auto with frames | intros id_packet].
    destruct (public o); auto with frames.
Qed.

(** What [parse] does to the world, for [main]. *)
Lemma parse_frame o w w' out :
  parse usage o w = (w', out) ->
  terminal w' = terminal w /\
  match out with
  | Return o' =>
      w' = w /\ help o = false /\ load o' = load o /\ input o' = input o
  | Exit status =>
      (status = 0 /\ help o = true /\
       stdout w'
       = stdout w ++ match stdout_limit w with
                     | Some (n, _) => firstn n usage
                     | None => usage
                     end) \/
      (status = 1 /\ help o = false /\ stdout w' = stdout w)
  | Panic => False
  end.
Proof.
  unfold parse, fatal. run.
  destruct (help o) eqn:Hhelp.
  { destruct (stdout_limit w) as [[n e] |]; run; intros [= <- <-];
      (split; [reflexivity | left; auto]). }
  destruct ((uid o =? "")%string && (load o =? "")%string).
  - destruct (negb (environ w "EMAIL" =? "")%string).
    + destruct (negb (environ w "REALNAME" =? "")%string).
      * cbn [uid with_uid].
        destruct ((_ ++ _)%string =? "")%string; cbn [now with_uid].
        -- run. intros [= <- <-]. split; [reflexivity | right; auto].
        -- destruct (now o); run; intros [= <- <-]; auto.
      * destruct (uid o =? "")%string.
        -- run. intros [= <- <-]. split; [reflexivity | right; auto].
        -- destruct (now o); run; intros [= <- <-]; auto.
    + destruct (uid o =? "")%string.
      * run. intros [= <- <-]. split; [reflexivity | right; auto].
      * destruct (now o); run; intros [= <- <-]; auto.
  - destruct (now o); run; intros [= <- <-]; auto.
Qed.

End MainFrames.

(** How a sequence ends: its first part returned and the second ran, or the
    first part ended the run. *)
Lemma bind_inv {A B} (m : prog A) (k : A -> prog B) w w' out :
  cmd.bind m k w = (w', out) ->
  (exists w1 a, m w = (w1, Return a) /\ k a w1 = (w', out)) \/
  (exists status, m w = (w', Exit status) /\ out = Exit status) \/
  (m w = (w', Panic) /\ out = Panic).
Proof.
  unfold cmd.bind. destruct (m w) as [w1 [a | status |]].
  - intros H. left. eauto.
  - intros [= <- <-]. right. left. eauto.
  - intros [= <- <-]. right. right. eauto.
Qed.

Section Main.

Variable usage : list byte.
Variable Error : error -> string.
Variable bufio_Scan : Reader -> Scanner.
Variable IDKey :
  list byte -> list byte -> Z -> Z -> Z -> Z -> option (list byte).
Variable read : Reader -> result (list byte * Reader).
Variable Armor : list byte -> list byte.

Context {SignKey EncryptKey : Type}.
Context {SignKey_seed : Key SignKey} {EncryptKey_seed : Key EncryptKey}.
Context {SignKey_methods : SignKeyMethods SignKey EncryptKey}.
Context {EncryptKey_methods : EncryptKeyMethods EncryptKey}.

(** The two branches of [main] that set the keys and the identity. *)
Lemma silent_main_setup o (l : locals SignKey EncryptKey) :
  silent
    (if (load o =? "")%string
     then cmd.bind (main_passphrase Error bufio_Scan o)
            (fun passphrase =>
               cmd.bind (lift (main_keygen IDKey o passphrase l))
                 (fun l => ret (o, l)))
     else main_load Error read o l).
Proof.
  destruct (load o =? "")%string.
  - apply silent_bind; [apply silent_main_passphrase | intros p].
    auto with frames.
  - apply silent_main_load.
Qed.

(** [parse] leaves the mode of the run and the armor flag as the command
    line gave them. *)
Lemma parse_mode o w w' o' :
  parse usage o w = (w', Return o') ->
  sign o' = sign o /\ public o' = public o /\ subkey o' = subkey o /\
  armor o' = armor o.
Proof.
  unfold parse, fatal. run.
  destruct (help o).
  { destruct (stdout_limit w) as [[n e] |]; run; discriminate. }
  destruct ((uid o =? "")%string && (load o =? "")%string).
  - destruct (negb (environ w "EMAIL" =? "")%string).
    + destruct (negb (environ w "REALNAME" =? "")%string).
      * cbn [uid with_uid].
        destruct ((_ ++ _)%string =? "")%string; cbn [now with_uid].
        -- run. discriminate.
        -- destruct (now o); run; intros [= <- <-]; repeat split.
      * destruct (uid o =? "")%string.
        -- run. discriminate.
        -- destruct (now o); run; intros [= <- <-]; repeat split.
    + destruct (uid o =? "")%string.
      * run. discriminate.
      * destruct (now o); run; intros [= <- <-]; repeat split.
  - destruct (now o); run; intros [= <- <-]; repeat split.
Qed.

(** So do the two branches that set the keys and the identity. *)
Lemma main_setup_mode o (l : locals SignKey EncryptKey) w w' o' l' :
  (if (load o =? "")%string
   then cmd.bind (main_passphrase Error bufio_Scan o)
          (fun passphrase =>
             cmd.bind (lift (main_keygen IDKey o passphrase l))
               (fun l => ret (o, l)))
   else main_load Error read o l) w = (w', Return (o', l')) ->
  sign o' = sign o /\ public o' = public o /\ subkey o' = subkey o /\
  armor o' = armor o.
Proof.
  destruct (load o =? "")%string.
  - intros Hgen.
    apply bind_inv in Hgen
      as [(w1 & p & _ & Hgen) | [(s & _ & [=]) | (_ & [=])]].
    apply bind_inv in Hgen
      as [(w2 & l2 & _ & Hgen) | [(s & _ & [=]) | (_ & [=])]].
    injection Hgen as _ <- _. repeat split.
  - unfold main_load, fatal. run.
    destruct (files w (load o)) as [content | e]; run; [| discriminate].
    destruct (SignKey_Load (key l) content) as [key' [rest | e]]; run;
      [| discriminate].
    destruct (UserID.Load read (userid l) rest) as [[u' [rest' | e]] |];
      run; [| discriminate | discriminate].
    intros [= _ <- _]. repeat split.
Qed.

(** What [main] has written to standard output when it ends, on the flags
    [flag.Parse] returned. *)
Lemma main_stdout (flags : options) (w w' : World) out :
  main usage Error bufio_Scan IDKey read Armor flags w = (w', out) ->
  (stdout_limit w = None ->
   match out with
   | Return _ =>
       help flags = false /\
       exists o (l : locals SignKey EncryptKey) w1 w2 raw,
         sign o = sign flags /\ public o = public flags /\
         subkey o = subkey flags /\
         main_output Error o l w1 = (w2, Return raw) /\
         stdout w' = stdout w ++ (if armor flags then Armor raw else raw)
   | Exit status =>
       (status = 0 /\ help flags = true /\ stdout w' = stdout w ++ usage) \/
       (status = 1 /\ stdout w' = stdout w)
   | Panic => stdout w' = stdout w
   end) /\
  (stdout_limit w <> None -> forall a, out <> Return a).
Proof.
  unfold main. intros Hmain.
  apply bind_inv in Hmain
    as [(w1 & o & Hparse & Hmain)
       | [(status & Hparse & ->) | (Hparse & ->)]];
    try pose proof (parse_mode _ _ _ _ Hparse) as Hmode1;
    apply parse_frame in Hparse; destruct Hparse as [_ Hparse]; cbn in Hparse;
    [| | contradiction].
  2: { split; [| discriminate].
       intros Hlimit. rewrite Hlimit in Hparse.
       destruct Hparse as [(-> & Hhelp & Hout) | (-> & _ & Hout)]; auto. }
  destruct Hparse as (-> & Hhelp & _ & _).
  apply bind_inv in Hmain
    as [(w2 & [o' l'] & Hsetup & Hmain)
       | [(status & Hsetup & ->) | (Hsetup & ->)]];
    try pose proof (main_setup_mode _ _ _ _ _ _ Hsetup) as Hmode2;
    apply silent_main_setup in Hsetup;
    destruct Hsetup as (Hout2 & Hlimit2 & Hexit2).
  2: { split; [| discriminate]. intros _. right.
       split; [apply Hexit2; reflexivity | exact Hout2]. }
  2: { split; [| discriminate]. intros _. exact Hout2. }
  apply bind_inv in Hmain
    as [(w3 & [] & Hprint & Hmain)
       | [(status & Hprint & ->) | (Hprint & ->)]].
  2, 3: destruct (fingerprint o'); run; discriminate.
  assert (Hout3 : stdout w3 = stdout w2 /\ stdout_limit w3 = stdout_limit w2).
  { destruct (fingerprint o'); run; injection Hprint as <-; auto. }
  destruct Hout3 as [Hout3 Hlimit3].
  apply bind_inv in Hmain
    as [(w4 & output & Houtput & Hmain)
       | [(status & Houtput & ->) | (Houtput & ->)]];
    pose proof Houtput as Hraw;
    apply silent_main_output in Houtput;
    destruct Houtput as (Hout4 & Hlimit4 & Hexit4).
  2: { split; [| discriminate]. intros _. right.
       split; [apply Hexit4; reflexivity | congruence]. }
  2: { split; [| discriminate]. intros _. congruence. }
  unfold fatal in Hmain. run.
  destruct (stdout_limit w4) as [[n e] |] eqn:Hlimit; run;
    injection Hmain as <- <-; run.
  - split; [| discriminate]. intros Hnone. congruence.
  - split.
    + intros _. split; [exact Hhelp |].
      destruct Hmode1 as (Hs1 & Hp1 & Hk1 & Ha1).
      destruct Hmode2 as (Hs2 & Hp2 & Hk2 & Ha2).
      exists o', l', w3, w4, output.
      rewrite Hout4, Hout3, Hout2, <- Ha1, <- Ha2.
      repeat split; congruence.
    + intros Hsome. congruence.
Qed.

(** X14: with [-l] or with [-i], [main] asks for no passphrase: however the
    run ends, no answer has been read from the terminal. *)
Theorem main_no_prompt (flags : options) (w w' : World) out :
  main usage Error bufio_Scan IDKey read Armor flags w = (w', out) ->
  load flags <> EmptyString \/ input flags <> EmptyString ->
  terminal w' = terminal w.
Proof.
  unfold main. intros Hmain Hflags.
  apply bind_inv in Hmain
    as [(w1 & o & Hparse & Hmain)
       | [(status & Hparse & ->) | (Hparse & ->)]];
    apply parse_frame in Hparse; destruct Hparse as [Hterm Hparse];
    [| exact Hterm | exact Hterm].
  destruct Hparse as (-> & _ & Hload & Hinput).
  rewrite <- Hload, <- Hinput in Hflags.
  match type of Hmain with
  | ?body _ = _ => assert (Hdeaf : deaf body)
  end.
  { apply deaf_bind.
    - destruct (String.eqb_spec (load o) "") as [Hempty | _];
        [| apply deaf_main_load].
      apply deaf_bind; [| auto with frames].
      unfold main_passphrase. apply deaf_bind.
      + destruct (String.eqb_spec (input o) "") as [Hnone | _]; cbn [negb];
          [| apply deaf_firstLine].
        destruct Hflags; contradiction.
      + intros [p | e]; auto with frames.
    - intros [o' l']. apply deaf_bind.
      + destruct (fingerprint o'); auto with frames.
      + intros _. apply deaf_bind; [apply deaf_main_output | intros output].
        apply deaf_bind; [auto with frames | intros [e |]];
          auto with frames. }
  exact (Hdeaf _ _ _ Hmain).
Qed.

End Main.

Lemma main_no_prompt_witness :
  exists w',
    main [Byte.x55] Fixture.Error Fixture.bufio_Scan Sample.IDKey readPacket
      Fixture.Armor Fixture.flags_input
      (Fixture.with_file
         (Fixture.world [Val Fixture.hunter2] Fixture.no_env)
         "passphrase.txt" Fixture.hunter2)
    = (w', Return tt) /\
    terminal w' = [Val Fixture.hunter2].
Proof.
  eexists. split; [vm_compute; reflexivity |].
  refine (main_no_prompt [Byte.x55] Fixture.Error Fixture.bufio_Scan
            Sample.IDKey readPacket Fixture.Armor Fixture.flags_input
            (Fixture.with_file
               (Fixture.world [Val Fixture.hunter2] Fixture.no_env)
               "passphrase.txt" Fixture.hunter2)
            _ _ eq_refl _).
  right. discriminate.
Defined.

(** ** The key file *)

(** [Load] reads back an encoded identity of at most 255 bytes. *)
Lemma Load_encoded read (v : UserID.t) (id : list byte) (rest : Reader) :
  packet_reader read ->
  Go.len id <= 255 ->
  UserID.Load read v
    (byte.of_Z (Z.lor 0xc0 13) :: byte.of_Z (Go.len id) :: id ++ rest)
  = Some ({| UserID.ID := id; UserID.EnableMDC := UserID.EnableMDC v |},
          Ok rest).
Proof.
  intros [_ Hread] Hlen. unfold UserID.Load. rewrite Hread.
  - reflexivity.
  - rewrite byte_of_Z_small by (unfold Go.len in *; lia).
    unfold Go.len. lia.
Qed.

Section KeyFile.

Variable Error : error -> string.
Variable read : Reader -> result (list byte * Reader).

Context {SignKey EncryptKey : Type}.
Context {SignKey_methods : SignKeyMethods SignKey EncryptKey}.
Context {EncryptKey_methods : EncryptKeyMethods EncryptKey}.

(** X15: a key written by [main] can be loaded by [main].  Take the output
    of a run without [-S] and without [-p] (before any armor), for an
    identity of at most 255 bytes, as the content of the file of [-l], and
    let [key.Load] read back what [key.Packet()] wrote, leaving the reader
    after it.  Then the load branch ends without error: the identity is the
    one that was written, the creation date is the one of the loaded key,
    and the subkey is untouched. *)
Theorem key_file_round_trip (o o2 : options)
    (l l0 : locals SignKey EncryptKey) (key' : SignKey)
    (w w' w2 : World) (output : list byte) :
  packet_reader read ->
  sign o = false ->
  public o = false ->
  Go.len (UserID.ID (userid l)) <= 255 ->
  main_output Error o l w = (w', Return output) ->
  (forall rest,
     SignKey_Load (key l0) (SignKey_Packet (key l) ++ rest)
     = (key', Val rest)) ->
  files w2 (load o2) = Val output ->
  main_load Error read o2 l0 w2
  = (w2,
     Return (with_created o2 (SignKey_Created key'),
             {| key := key';
                subkey_ := subkey_ l0;
                userid := {| UserID.ID := UserID.ID (userid l);
                             UserID.EnableMDC :=
                               UserID.EnableMDC (userid l0) |} |})).
Proof.
  intros Hread Hsign Hpublic Hlen Houtput Hkey Hfile.
  unfold main_output in Houtput. rewrite Hsign, Hpublic, Packet_eq in Houtput.
  run. injection Houtput as _ <-.
  unfold main_load. run. rewrite Hfile, Hkey.
  cbn [app]. rewrite Load_encoded by assumption.
  reflexivity.
Qed.

End KeyFile.

(** The recording key reads back its secret packet. *)
Lemma RecordedKey_Load_Packet (k0 k : Sample.RecordedKey) (rest : Reader) :
  Go.len (Sample.seeded_with k) <= 255 ->
  Fixture.RecordedKey_Load k0 (Fixture.RecordedKey_Packet 5 k ++ rest)
  = ({| Sample.seeded_with := Sample.seeded_with k;
        Sample.created_at := Sample.created_at k0 |}, Val rest).
Proof.
  intros Hlen. unfold Fixture.RecordedKey_Load, Fixture.RecordedKey_Packet.
  cbn [app]. rewrite readPacket_packet.
  - reflexivity.
  - reflexivity.
  - rewrite byte_of_Z_small by (unfold Go.len in *; lia).
    unfold Go.len. lia.
Qed.

Lemma key_file_round_trip_witness :
  exists output,
    main_output Fixture.Error Sample.opts Fixture.alice_keys
      (Fixture.world [] Fixture.no_env)
    = (Fixture.world [] Fixture.no_env, Return output) /\
    main_load Fixture.Error readPacket Fixture.flags_load Fixture.zero_keys
      (Fixture.with_file (Fixture.world [] Fixture.no_env) "alice.key" output)
    = (Fixture.with_file (Fixture.world [] Fixture.no_env) "alice.key" output,
       Return
         (with_created Fixture.flags_load 0,
          {| key := {| Sample.seeded_with := Fixture.hunter2;
                       Sample.created_at := 0 |};
             subkey_ := Sample.no_key;
             userid :=
               {| UserID.ID := list_byte_of_string "Alice <alice@example.org>";
                  UserID.EnableMDC := false |} |})).
Proof.
  assert (Houtput :
    exists output,
      main_output Fixture.Error Sample.opts Fixture.alice_keys
        (Fixture.world [] Fixture.no_env)
      = (Fixture.world [] Fixture.no_env, Return output))
    by (eexists; vm_compute; reflexivity).
  destruct Houtput as [output Houtput].
  exists output. split; [exact Houtput |].
  assert (Hlen : Go.len (UserID.ID (userid Fixture.alice_keys)) <= 255)
    by by_evaluation.
  assert (Hkey : forall rest,
    SignKey_Load (key Fixture.zero_keys)
      (SignKey_Packet (key Fixture.alice_keys) ++ rest)
    = ({| Sample.seeded_with := Fixture.hunter2; Sample.created_at := 0 |},
       Val rest)).
  { intros rest.
    apply (RecordedKey_Load_Packet Sample.no_key
             {| Sample.seeded_with := Fixture.hunter2;
                Sample.created_at := 5 |}).
    vm_compute. discriminate. }
  assert (Hfile :
    files (Fixture.with_file (Fixture.world [] Fixture.no_env)
             "alice.key" output) (load Fixture.flags_load) = Val output)
    by reflexivity.
  exact (key_file_round_trip Fixture.Error readPacket Sample.opts
           Fixture.flags_load Fixture.alice_keys Fixture.zero_keys _ _ _ _ _
           readPacket_packet_reader eq_refl eq_refl Hlen Houtput Hkey Hfile).
Defined.

(** ** A run of [main] that generates a key *)

(** [readPassphrase] on answers that agree: the world after the call. *)
Lemma readPassphrase_accepts (repeat : Z) (p : list byte) rest w :
  terminal w = List.repeat (Val p) (S (Z.to_nat repeat)) ++ rest ->
  readPassphrase repeat w
  = (with_stderr (with_terminal w rest)
       (stderr w ++ list_byte_of_string "passphrase: " ++ [Byte.x0a]
          ++ List.concat
               (List.repeat
                  (list_byte_of_string "passphrase (repeat): " ++ [Byte.x0a])
                  (Z.to_nat repeat))),
     Return (Val p)).
Proof.
  intros Hterm. cbn [List.repeat app] in Hterm.
  unfold readPassphrase. run. rewrite Hterm. run.
  rewrite readPassphrase_loop_accepts with (rest := rest) by reflexivity.
  run. rewrite <- !app_assoc. reflexivity.
Qed.

(** A sequence whose first part returns goes on with the second. *)
Lemma bind_Return {A B} (m : prog A) (k : A -> prog B) w w1 a :
  m w = (w1, Return a) -> cmd.bind m k w = k a w1.
Proof. intros Hm. unfold cmd.bind. rewrite Hm. reflexivity. Qed.

(** [parse] with a user ID on the command line. *)
Lemma parse_given (usage : list byte) (o : options) (w : World) :
  help o = false ->
  uid o <> EmptyString ->
  parse usage o w
  = (w, Return (if now o then with_created o (unix_time w) else o)).
Proof.
  intros Hhelp Huid. unfold parse. rewrite Hhelp. run.
  destruct (String.eqb_spec (uid o) "") as [Hempty | _]; [contradiction |].
  cbn [andb]. destruct (now o); reflexivity.
Qed.

Section Generate.

Variable usage : list byte.
Variable Error : error -> string.
Variable bufio_Scan : Reader -> Scanner.
Variable IDKey :
  list byte -> list byte -> Z -> Z -> Z -> Z -> option (list byte).
Variable read : Reader -> result (list byte * Reader).
Variable Armor : list byte -> list byte.

Context {SignKey EncryptKey : Type}.
Context {SignKey_seed : Key SignKey} {EncryptKey_seed : Key EncryptKey}.
Context {SignKey_methods : SignKeyMethods SignKey EncryptKey}.
Context {EncryptKey_methods : EncryptKeyMethods EncryptKey}.

(** The output of [main] without [-S], before the armor. *)
Lemma main_output_packets (o : options) (l : locals SignKey EncryptKey) w :
  sign o = false ->
  main_output Error o l w
  = (w,
     Return
       ((if public o
         then SignKey_PubPacket (key l)
         else SignKey_Packet (key l))
          ++ (byte.of_Z (Z.lor 0xc0 13)
                :: byte.of_Z (Go.len (UserID.ID (userid l)))
                :: UserID.ID (userid l))
          ++ SignKey_Bind (key l) (Bindable_UserID (userid l)) (created o)
          ++ (if subkey o
              then (if public o
                    then EncryptKey_PubPacket (subkey_ l)
                    else EncryptKey_Packet (subkey_ l))
                     ++ SignKey_Bind (key l)
                          (Bindable_EncryptKey (subkey_ l)) (created o)
              else []))).
Proof.
  intros Hsign. unfold main_output. rewrite Hsign, Packet_eq. run.
  destruct (public o), (subkey o); reflexivity.
Qed.

(** X16: a run of [main] that generates a key from the terminal.  Without
    [-h], [-l], [-i] and [-S], with a user ID given by [-u], with a
    passphrase typed [1 + repeat] times and no failure on standard output,
    [main] returns, has read exactly those answers, and has written to
    standard output, armored with [-a], the packet of the signing key seeded
    with the first half of the seed, the UserID packet of the user ID, its
    binding and, with [-s], the packet of the subkey seeded with the second
    half and its binding; the packets are the public ones with [-p], and the
    creation date is the clock with [-n]. *)
Theorem main_generates (flags : options) (passphrase : list byte)
    (rest : list (returned (list byte))) (w : World) :
  Argon2_interface IDKey ->
  help flags = false ->
  uid flags <> EmptyString ->
  load flags = EmptyString ->
  input flags = EmptyString ->
  sign flags = false ->
  terminal w
  = List.repeat (Val passphrase) (S (Z.to_nat (repeat flags))) ++ rest ->
  stdout_limit w = None ->
  exists seed lo hi w',
    kdf IDKey passphrase (list_byte_of_string (uid flags))
      (if paranoid flags then 2 else 1) = Some seed /\
    seed = lo ++ hi /\
    List.length lo = 32%nat /\
    List.length hi = 32%nat /\
    main usage Error bufio_Scan IDKey read Armor flags w = (w', Return tt) /\
    terminal w' = rest /\
    let t := if now flags then unix_time w else created flags in
    let k := SetCreated (Seed SignKey_zero lo) t in
    let s := if subkey flags
             then SetCreated (Seed EncryptKey_zero hi) t
             else EncryptKey_zero in
    let u := {| UserID.ID := list_byte_of_string (uid flags);
                UserID.EnableMDC := false |} in
    let raw :=
      (if public flags then SignKey_PubPacket k else SignKey_Packet k)
        ++ (byte.of_Z (Z.lor 0xc0 13)
              :: byte.of_Z (Go.len (list_byte_of_string (uid flags)))
              :: list_byte_of_string (uid flags))
        ++ SignKey_Bind k (Bindable_UserID u) t
        ++ (if subkey flags
            then (if public flags
                  then EncryptKey_PubPacket s
                  else EncryptKey_Packet s)
                   ++ SignKey_Bind k (Bindable_EncryptKey s) t
            else []) in
    stdout w' = stdout w ++ (if armor flags then Armor raw else raw).
Proof.
  intros Hargon Hhelp Huid Hload Hinput Hsign Hterm Hlimit.
  destruct (kdf_seed IDKey passphrase (list_byte_of_string (uid flags))
              (if paranoid flags then 2 else 1) Hargon)
    as (seed & Hseed & Hlen); [destruct (paranoid flags); lia |].
  destruct (seed_halves seed Hlen) as (Hlo & Hhi & Hsplit & Hlenlo & Hlenhi).
  exists seed, (firstn 32 seed), (skipn 32 seed).
  set (o := if now flags then with_created flags (unix_time w) else flags).
  assert (Ho : load o = EmptyString /\ input o = EmptyString /\
               repeat o = repeat flags /\ uid o = uid flags /\
               paranoid o = paranoid flags /\ subkey o = subkey flags /\
               public o = public flags /\ armor o = armor flags /\
               sign o = false /\
               created o = (if now flags then unix_time w else created flags))
    by (subst o; destruct (now flags); cbn; auto 10).
  destruct Ho as (Hload' & Hinput' & Hrepeat & Huid' & Hparanoid & Hsubkey
                    & Hpublic & Harmor & Hsign' & Hcreated).
  set (t := if now flags then unix_time w else created flags) in *.
  set (w1 := with_stderr (with_terminal w rest)
               (stderr w ++ list_byte_of_string "passphrase: " ++ [Byte.x0a]
                  ++ List.concat
                       (List.repeat
                          (list_byte_of_string "passphrase (repeat): "
                             ++ [Byte.x0a])
                          (Z.to_nat (repeat flags))))).
  set (l0 := {| key := SignKey_zero; subkey_ := EncryptKey_zero;
                userid := {| UserID.ID := [];
                             UserID.EnableMDC := false |} |}).
  set (l1 := {| key := SetCreated (Seed SignKey_zero (firstn 32 seed)) t;
                subkey_ := if subkey flags
                           then SetCreated
                                  (Seed EncryptKey_zero (skipn 32 seed)) t
                           else EncryptKey_zero;
                userid := {| UserID.ID := list_byte_of_string (uid flags);
                             UserID.EnableMDC := false |} |}).
  assert (Hpass :
    main_passphrase Error bufio_Scan o w = (w1, Return passphrase)).
  { unfold main_passphrase. rewrite Hinput', Hrepeat. cbn [String.eqb negb].
    rewrite (bind_Return _ _ _ _ _ (readPassphrase_accepts _ _ _ _ Hterm)).
    reflexivity. }
  assert (Hgen : main_keygen IDKey o passphrase l0 = Some l1).
  { unfold main_keygen. rewrite Huid', Hparanoid, Hseed. cbn [Go.bind].
    rewrite Hlo. cbn [Go.bind]. rewrite Hsubkey, Hcreated.
    subst l1 l0. cbn [key subkey_ userid].
    destruct (subkey flags); [rewrite Hhi |]; reflexivity. }
  assert (Hprint : exists w2,
    (if fingerprint o
     then Stderr_Write (SignKey_KeyID_X (key l1) ++ [Byte.x0a])
     else ret tt) w1 = (w2, Return tt) /\
    terminal w2 = rest /\ stdout w2 = stdout w /\ stdout_limit w2 = None).
  { destruct (fingerprint o); run; eexists; (split; [reflexivity |]);
      subst w1; run; auto. }
  destruct Hprint as (w2 & Hprint & Hterm2 & Hout2 & Hlimit2).
  exists (with_stdout w2
            (stdout w2
               ++ (if armor o
                   then Armor
                          ((if public o
                            then SignKey_PubPacket (key l1)
                            else SignKey_Packet (key l1))
                             ++ (byte.of_Z (Z.lor 0xc0 13)
                                   :: byte.of_Z (Go.len (UserID.ID (userid l1)))
                                   :: UserID.ID (userid l1))
                             ++ SignKey_Bind (key l1)
                                  (Bindable_UserID (userid l1)) (created o)
                             ++ (if subkey o
                                 then (if public o
                                       then EncryptKey_PubPacket (subkey_ l1)
                                       else EncryptKey_Packet (subkey_ l1))
                                        ++ SignKey_Bind (key l1)
                                             (Bindable_EncryptKey (subkey_ l1))
                                             (created o)
                                 else []))
                   else (if public o
                         then SignKey_PubPacket (key l1)
                         else SignKey_Packet (key l1))
                          ++ (byte.of_Z (Z.lor 0xc0 13)
                                :: byte.of_Z (Go.len (UserID.ID (userid l1)))
                                :: UserID.ID (userid l1))
                          ++ SignKey_Bind (key l1)
                               (Bindable_UserID (userid l1)) (created o)
                          ++ (if subkey o
                              then (if public o
                                    then EncryptKey_PubPacket (subkey_ l1)
                                    else EncryptKey_Packet (subkey_ l1))
                                     ++ SignKey_Bind (key l1)
                                          (Bindable_EncryptKey (subkey_ l1))
                                          (created o)
                              else [])))).
  split; [exact Hseed | split; [exact Hsplit |]].
  split; [exact Hlenlo | split; [exact Hlenhi |]].
  split; [| split].
  - unfold main.
    rewrite (bind_Return _ _ _ _ _ (parse_given usage flags w Hhelp Huid)).
    fold o. rewrite Hload'. cbn [String.eqb]. fold l0.
    rewrite bind_Return with (a := (o, l1)) (w1 := w1).
    2: { rewrite (bind_Return _ _ _ _ _ Hpass).
         unfold lift, cmd.bind, ret. rewrite Hgen. reflexivity. }
    cbn beta iota.
    rewrite (bind_Return _ _ _ _ _ Hprint).
    rewrite (bind_Return _ _ _ _ _ (main_output_packets _ _ _ Hsign')).
    unfold Stdout_Write, cmd.bind, ret. rewrite Hlimit2. reflexivity.
  - run. exact Hterm2.
  - cbv zeta. run. subst l1. cbn [key subkey_ userid UserID.ID].
    rewrite Hout2, Harmor, Hpublic, Hsubkey, Hcreated. reflexivity.
Qed.

End Generate.

Lemma main_generates_witness :
  exists seed lo hi w',
    kdf Sample.IDKey Fixture.hunter2 (list_byte_of_string (uid Sample.opts)) 1
    = Some seed /\
    seed = lo ++ hi /\
    main [Byte.x55] Fixture.Error Fixture.bufio_Scan Sample.IDKey readPacket
      Fixture.Armor Sample.opts
      (Fixture.world [Val Fixture.hunter2; Val Fixture.hunter2] Fixture.no_env)
    = (w', Return tt) /\
    terminal w' = [] /\
    stdout w'
    = Fixture.RecordedKey_Packet 5
        {| Sample.seeded_with := lo; Sample.created_at := 0 |}
        ++ (Byte.xcd :: Byte.x19
              :: list_byte_of_string "Alice <alice@example.org>")
        ++ [Byte.xc2; Byte.x00]
        ++ Fixture.RecordedKey_Packet 7
             {| Sample.seeded_with := hi; Sample.created_at := 0 |}
        ++ [Byte.xc2; Byte.x00].
Proof.
  destruct (main_generates [Byte.x55] Fixture.Error Fixture.bufio_Scan
              Sample.IDKey readPacket Fixture.Armor Sample.opts
              Fixture.hunter2 []
              (Fixture.world [Val Fixture.hunter2; Val Fixture.hunter2]
                 Fixture.no_env)
              Sample_IDKey_interface eq_refl ltac:(discriminate)
              eq_refl eq_refl eq_refl eq_refl eq_refl)
    as (seed & lo & hi & w' & Hseed & Hsplit & _ & _ & Hmain & Hterm & Hout).
  exists seed, lo, hi, w'.
  split; [exact Hseed | split; [exact Hsplit |]].
  split; [exact Hmain | split; [exact Hterm | exact Hout]].
Defined.

Lemma firstLine_no_EOF_witness :
  files
    (Fixture.with_file (Fixture.world [] Fixture.no_env)
       "passphrase.txt"
       (Fixture.hunter2 ++ Byte.x0a :: list_byte_of_string "second line"))
    "passphrase.txt"
  = Val (Fixture.hunter2 ++ Byte.x0a :: list_byte_of_string "second line") /\
  exists r,
    firstLine Fixture.bufio_Scan "passphrase.txt"
      (Fixture.with_file (Fixture.world [] Fixture.no_env)
         "passphrase.txt"
         (Fixture.hunter2 ++ Byte.x0a :: list_byte_of_string "second line"))
    = (Fixture.with_file (Fixture.world [] Fixture.no_env)
         "passphrase.txt"
         (Fixture.hunter2 ++ Byte.x0a :: list_byte_of_string "second line"),
       Return r) /\
    r <> Fail io_EOF /\
    r = Val Fixture.hunter2.
Proof.
  assert (Hfile :
    files
      (Fixture.with_file (Fixture.world [] Fixture.no_env)
         "passphrase.txt"
         (Fixture.hunter2 ++ Byte.x0a :: list_byte_of_string "second line"))
      "passphrase.txt"
    = Val (Fixture.hunter2 ++ Byte.x0a :: list_byte_of_string "second line"))
    by reflexivity.
  split; [exact Hfile |].
  destruct (firstLine_no_EOF Fixture.bufio_Scan _ _ _ Hfile)
    as (r & Hrun & Hne & Hline & _).
  exists r. split; [exact Hrun | split; [exact Hne |]].
  apply Hline. reflexivity.
Defined.

(** ** The load branch *)

Section LoadBranch.

Variable Error : error -> string.
Variable read : Reader -> result (list byte * Reader).

Context {SignKey EncryptKey : Type}.
Context {SignKey_methods : SignKeyMethods SignKey EncryptKey}.

(** X17: what the load branch of [main] leaves alone, whatever the file and
    the packet reader.  When it returns, the world is as it was, the subkey
    is the one it was given (with [-l], the subkey is neither seeded nor
    loaded), the [EnableMDC] of the identity is unchanged, the key is what
    [key.Load] left, and the options differ only by the creation date, which
    is the one of the loaded key.  Otherwise it exits with status 1 or
    panics, and the terminal and standard output are as they were. *)
Theorem main_load_frame (o : options) (l : locals SignKey EncryptKey)
    (w w' : World) out :
  main_load Error read o l w = (w', out) ->
  terminal w' = terminal w /\
  stdout w' = stdout w /\
  match out with
  | Return (o', l') =>
      w' = w /\
      subkey_ l' = subkey_ l /\
      UserID.EnableMDC (userid l') = UserID.EnableMDC (userid l) /\
      o' = with_created o (SignKey_Created (key l')) /\
      exists content rest,
        files w (load o) = Val content /\
        SignKey_Load (key l) content = (key l', Val rest)
  | Exit status => status = 1
  | Panic => True
  end.
Proof.
  unfold main_load, fatal. run.
  destruct (files w (load o)) as [content | e] eqn:Hfile; run.
  2: { intros [= <- <-]. run. auto. }
  destruct (SignKey_Load (key l) content) as [key' [rest | e]] eqn:Hkey; run.
  2: { intros [= <- <-]. run. auto. }
  destruct (UserID.Load read (userid l) rest) as [[u' [rest' | e]] |]
    eqn:Hload; run.
  - intros [= <- <-]. cbn [key subkey_ userid].
    destruct (Load_cases _ _ _ _ _ Hload)
      as [[_ [e He]] | (_ & _ & _ & _ & _ & Hmdc & _)]; [discriminate |].
    split; [reflexivity | split; [reflexivity |]].
    split; [reflexivity | split; [reflexivity | split; [exact Hmdc |]]].
    split; [reflexivity |]. eauto.
  - intros [= <- <-]. run. auto.
  - intros [= <- <-]. auto.
Qed.

End LoadBranch.

Lemma main_load_frame_witness :
  exists content o' l',
    main_load Fixture.Error readPacket Fixture.flags_load Fixture.alice_keys
      (Fixture.with_file (Fixture.world [] Fixture.no_env) "alice.key" content)
    = (Fixture.with_file (Fixture.world [] Fixture.no_env) "alice.key" content,
       Return (o', l')) /\
    subkey_ l' = subkey_ Fixture.alice_keys /\
    UserID.EnableMDC (userid l') = true /\
    UserID.ID (userid l') = [Byte.x42].
Proof.
  exists ([Byte.xc5; Byte.x01; Byte.x41] ++ [Byte.xcd; Byte.x01; Byte.x42]).
  do 2 eexists.
  assert (Hrun :
    main_load Fixture.Error readPacket Fixture.flags_load Fixture.alice_keys
      (Fixture.with_file (Fixture.world [] Fixture.no_env) "alice.key"
         ([Byte.xc5; Byte.x01; Byte.x41] ++ [Byte.xcd; Byte.x01; Byte.x42]))
    = (Fixture.with_file (Fixture.world [] Fixture.no_env) "alice.key"
         ([Byte.xc5; Byte.x01; Byte.x41] ++ [Byte.xcd; Byte.x01; Byte.x42]),
       Return
         (with_created Fixture.flags_load 5,
          {| key := {| Sample.seeded_with := [Byte.x41];
                       Sample.created_at := 5 |};
             subkey_ := Sample.no_key;
             userid := {| UserID.ID := [Byte.x42];
                          UserID.EnableMDC := true |} |})))
    by by_evaluation.
  split; [exact Hrun |].
  destruct (main_load_frame Fixture.Error readPacket _ _ _ _ _ Hrun)
    as (_ & _ & _ & Hsub & Hmdc & _).
  split; [exact Hsub | split; [exact Hmdc | reflexivity]].
Defined.

(** ** The command line: [parse] and [main] from [flag.Parse()] on *)

Lemma quiet_ret {A} (a : A) : cmdline.quiet (ret a).
Proof. intros w w' out [= <- <-]. split; reflexivity. Qed.

(** X10: how [parse] ends.  Either [flag.Parse] ends the process itself, on
    a command line it rejects, and [parse] ends the way it did, in the world
    it left; or [flag.Parse] returns the flags, and then [parse] ends in one
    of three ways.  With [-h] the process exits with status 0 and nothing
    more is written to standard error, whatever the other flags.  Without
    it, the process exits with status 1, with one more line on standard
    error and nothing more on standard output, exactly when neither [-u] nor
    [-l] is given and [EMAIL] or [REALNAME] is empty.  Otherwise [parse]
    returns, in the world [flag.Parse] left, and the options it returns have
    a user ID or a file to load.  After [flag.Parse] has returned, [parse]
    does not panic. *)
Theorem parse_outcome (flag_Parse : prog options) (usage : list byte)
    (w : World) :
  exists w' out,
    cmdline.parse flag_Parse usage w = (w', out) /\
    ((exists status, flag_Parse w = (w', Exit status) /\ out = Exit status) \/
     (flag_Parse w = (w', Panic) /\ out = Panic) \/
     exists o w1,
       flag_Parse w = (w1, Return o) /\
       match out with
       | Exit status =>
           (status = 0 /\ help o = true /\ stderr w' = stderr w1) \/
           (status = 1 /\ help o = false /\
            uid o = EmptyString /\ load o = EmptyString /\
            (environ w1 "EMAIL" = EmptyString \/
             environ w1 "REALNAME" = EmptyString) /\
            stdout w' = stdout w1 /\
            stderr w'
            = stderr w1
                ++ list_byte_of_string
                     "passphrase2pgp: must have either -u or -l option"
                ++ [Byte.x0a])
       | Return o' =>
           help o = false /\ w' = w1 /\
           (uid o' <> EmptyString \/ load o' <> EmptyString) /\
           ~ (uid o = EmptyString /\ load o = EmptyString /\
              (environ w1 "EMAIL" = EmptyString \/
               environ w1 "REALNAME" = EmptyString))
       | Panic => False
       end).
Proof.
  unfold cmdline.parse, cmd.bind.
  destruct (flag_Parse w) as [w1 [o | status |]] eqn:Hflags.
  - destruct (parse_cases usage o w1) as (w' & out & Hparse & Hcases).
    exists w', out. split; [exact Hparse |].
    right. right. exists o, w1. split; [reflexivity | exact Hcases].
  - exists w1, (Exit status). split; [reflexivity |]. left. eauto.
  - exists w1, Panic. split; [reflexivity |]. right. left. auto.
Qed.

Section CommandLine.

Variable usage : list byte.
Variable Error : error -> string.
Variable bufio_Scan : Reader -> Scanner.
Variable IDKey :
  list byte -> list byte -> Z -> Z -> Z -> Z -> option (list byte).
Variable read : Reader -> result (list byte * Reader).
Variable Armor : list byte -> list byte.

Context {SignKey EncryptKey : Type}.
Context {SignKey_seed : Key SignKey} {EncryptKey_seed : Key EncryptKey}.
Context {SignKey_methods : SignKeyMethods SignKey EncryptKey}.
Context {EncryptKey_methods : EncryptKeyMethods EncryptKey}.


End CommandLine.

